(** * pylinsql.code_generator: catalog introspection and dependency ordering

    A shallow embedding of [src/pylinsql/code_generator.py].

    - Python exceptions are values of [exn]; a function that may raise
      returns a [result], and statements run in sequence through [bind].
      An object that the code mutates in place ([table_schema], the column
      objects in its dictionary) is passed through and returned.
    - The recursive SQL query of [get_catalog_schema] is the algorithm of the
      dependency orderer, so it is embedded relation by relation: the three
      [information_schema] views it reads are lists of rows, joins are nested
      [flat_map]/[filter], and [WITH RECURSIVE ... UNION ALL] is the
      working-table iteration of PostgreSQL, bounded by an explicit [fuel]
      because it need not come to an end.  The views hold identifiers, which
      are not [NULL]; a row of [referential_constraints] without a unique
      constraint would join with nothing, as if it were not there.
    - The query joins [key_column_usage] to [referential_constraints] by
      the name of the constraint, and PostgreSQL keeps constraint names
      unique among the constraints of one table only.  Which table has a
      foreign key to which is therefore read off [pg_constraint], the
      system catalog that PostgreSQL makes the two views of; properties of
      the output in terms of foreign keys are stated for databases in
      which the views are those of the catalog and, where it takes that,
      in which no two tables of the target schema have key constraints of
      the same name.  A foreign key that rests on a unique index without a
      constraint is outside the model.
    - The other queries only fetch rows that the Python code then processes;
      for them the connection's answer is taken as it comes back from
      [typed_fetch_value], [raw_fetch] and [typed_fetch].  Failures of the
      transport are outside the model.
    - Python dictionaries keep insertion order, which the generator relies on,
      so they are association lists with Python's update rule.
    - What the module imports from [pylinsql.base] and [pylinsql.schema] is
      not among the sources: the conversion of a default literal and
      [str.isidentifier] are parameters, the key classes follow the
      specification.  Of [dataclasses.make_dataclass] the checks of the
      field names and of the order of defaults are written out; what the
      class machinery of Python does with the class body besides is a
      parameter. *)

From Stdlib Require Import List String Ascii ZArith Bool Lia Sorted Permutation.
Import ListNotations.

Open Scope string_scope.
Open Scope Z_scope.

(** ** Exceptions *)

(** One constructor per [raise] site of the module (all of them raise
    [RuntimeError] with a formatted message), named after the error kinds of
    the specification, plus the built-in exceptions that the indexing
    expressions of the module can raise and the failures of the external
    collaborators. *)
Inductive exn : Type :=
| UnrecognizedType (db_type : string)
    (* RuntimeError: unrecognized database type: {db_type} *)
| CrossSchemaReferenceError (foreign_key_schema primary_key_schema : string)
    (* RuntimeError: foreign key table schema ... and primary key table
       schema ... are not the same *)
| DuplicateForeignKeyError (column : string)
    (* RuntimeError: column {column.name} already has a foreign key
       constraint *)
| EmptySchemaError (db_schema : string)
    (* RuntimeError: catalog schema "{db_schema}" is empty *)
| KeyError (key : string)
    (* dict[key] on a missing key *)
| IndexError
    (* list[i] out of range *)
| TypeError (message : string) (name : string)
    (* raised by dataclasses.make_dataclass *)
| QueryError (message : string).
    (* an error reported by the database for a query *)

Inductive result (A : Type) : Type :=
| Ok (a : A)
| Raise (e : exn).
Arguments Ok {A} a.
Arguments Raise {A} e.

Definition bind {A B : Type} (c : result A) (k : A -> result B) : result B :=
  match c with
  | Ok a => k a
  | Raise e => Raise e
  end.

Notation "x <- c ;; k" := (bind c (fun x => k))
  (at level 61, c at next level, right associativity).

(** [[f(x) for x in xs]] for an [f] that may raise: left to right, the first
    exception ends the comprehension. *)
Fixpoint mapM {A B : Type} (f : A -> result B) (xs : list A) : result (list B) :=
  match xs with
  | [] => Ok []
  | x :: xs' =>
      y <- f x ;;
      ys <- mapM f xs' ;;
      Ok (y :: ys)
  end.

(** ** Python dictionaries (insertion ordered) *)

Section Dict.
Context {V : Type}.

Definition dict := list (string * V).

Fixpoint dict_get (d : dict) (k : string) : option V :=
  match d with
  | [] => None
  | (k', v) :: d' => if (k' =? k)%string then Some v else dict_get d' k
  end.

(** [d[k] = v]: an existing key keeps its position and takes the new value,
    a new key goes to the end. *)
Fixpoint dict_set (d : dict) (k : string) (v : V) : dict :=
  match d with
  | [] => [(k, v)]
  | (k', v') :: d' =>
      if (k' =? k)%string then (k, v) :: d' else (k', v') :: dict_set d' k v
  end.

(** [d[k]] as an expression: [KeyError] on a missing key. *)
Definition dict_getitem (d : dict) (k : string) : result V :=
  match dict_get d k with
  | Some v => Ok v
  | None => Raise (KeyError k)
  end.

(** [dict(pairs)]. *)
Definition dict_of (pairs : list (string * V)) : dict :=
  fold_left (fun d kv => dict_set d (fst kv) (snd kv)) pairs [].

Definition dict_values (d : dict) : list V := map snd d.
Definition dict_keys (d : dict) : list string := map fst d.
End Dict.
Arguments dict V : clear implicits.

(** ** Rows read from the database *)

(** [information_schema.tables], the columns the generator reads. *)
Record tables_row : Type := {
  tab_table_catalog : string;
  tab_table_schema : string;
  tab_table_name : string
}.

(** [information_schema.key_column_usage]. *)
Record key_column_usage_row : Type := {
  kcu_constraint_catalog : string;
  kcu_constraint_schema : string;
  kcu_constraint_name : string;
  kcu_table_catalog : string;
  kcu_table_schema : string;
  kcu_table_name : string;
  kcu_column_name : string
}.

(** [information_schema.referential_constraints]. *)
Record referential_constraints_row : Type := {
  ref_constraint_catalog : string;
  ref_constraint_schema : string;
  ref_constraint_name : string;
  ref_unique_constraint_catalog : string;
  ref_unique_constraint_schema : string;
  ref_unique_constraint_name : string
}.

(** A record of the column query of [_get_table_schema] ([raw_fetch]).  The
    two [CASE] expressions of the query yield SQL [NULL], Python [None], for
    anything but 'YES' and 'NO'. *)
Record column_record : Type := {
  column_name : string;
  is_nullable : option bool;
  data_type : string;
  column_default : option string;
  character_maximum_length : option Z;
  is_identity : option bool;
  description : option string
}.

Record _UniqueConstraint : Type := {
  key_name : string;
  key_schema : string;
  key_table : string;
  key_column : string
}.

Record _ReferenceConstraint : Type := {
  foreign_key_name : string;
  foreign_key_schema : string;
  foreign_key_table : string;
  foreign_key_column : string;
  primary_key_schema : string;
  primary_key_table : string;
  primary_key_column : string
}.

(** The kind of a key constraint, [contype] of [pg_catalog.pg_constraint]:
    [p], [u], or [f] with the referenced table ([confrelid], by schema and
    name) and the name of the primary-key or unique constraint of that table
    that the foreign key rests on. *)
Inductive constraint_type : Type :=
| primary_key
| unique_key
| foreign_key (confnamespace confrelname confconname : string).

(** A key constraint of the current database, a row of
    [pg_catalog.pg_constraint]: its schema, which is the schema of its
    table, its name, the table it is on ([conrelid], by name) and the
    constrained columns. *)
Record pg_constraint_row : Type := {
  connamespace : string;
  conname : string;
  conrelname : string;
  conkey : list string;
  contype : constraint_type
}.

(** The connection, seen through what it answers.  [CURRENT_CATALOG] and the
    three views are the state the dependency query is evaluated on; the four
    functions are the answers to the per-table queries, given the schema and
    the table name bound to [$1] and [$2].  [pg_constraint] is the system
    catalog behind the two constraint views.  The code never reads it; it
    says which table a constraint is on, which the views tell only up to
    the name of the constraint. *)
Record DatabaseClient : Type := {
  CURRENT_CATALOG : string;
  pg_constraint : list pg_constraint_row;
  information_schema_tables : list tables_row;
  information_schema_referential_constraints : list referential_constraints_row;
  information_schema_key_column_usage : list key_column_usage_row;
  fetch_table_description : string -> string -> option string;
  fetch_columns : string -> string -> list column_record;
  fetch_unique_constraints : string -> string -> list _UniqueConstraint;
  fetch_reference_constraints : string -> string -> list _ReferenceConstraint
}.

(** ** The dependency query of [get_catalog_schema] *)

(** A row of the common table expression [dependencies]. *)
Record dependency : Type := {
  depth : Z;
  parent_catalog : option string;
  parent_schema : option string;
  parent_name : option string;
  child_catalog : string;
  child_schema : string;
  child_name : string
}.

(** A row of [ref_con INNER JOIN pkey INNER JOIN fkey]. *)
Record fkey_join_row : Type := {
  ref_con : referential_constraints_row;
  pkey : key_column_usage_row;
  fkey : key_column_usage_row
}.

Definition pkey_on (r : referential_constraints_row) (k : key_column_usage_row) : bool :=
  ((ref_unique_constraint_catalog r =? kcu_constraint_catalog k) &&
   (ref_unique_constraint_schema r =? kcu_constraint_schema k) &&
   (ref_unique_constraint_name r =? kcu_constraint_name k))%string.

Definition fkey_on (r : referential_constraints_row) (k : key_column_usage_row) : bool :=
  ((ref_constraint_catalog r =? kcu_constraint_catalog k) &&
   (ref_constraint_schema r =? kcu_constraint_schema k) &&
   (ref_constraint_name r =? kcu_constraint_name k))%string.

(** [referential_constraints AS ref_con INNER JOIN key_column_usage AS pkey
    ON ... INNER JOIN key_column_usage AS fkey ON ...]: one row for every
    pair of a referenced key column and a referencing key column of each
    foreign-key constraint. *)
Definition fkey_join (conn : DatabaseClient) : list fkey_join_row :=
  flat_map (fun r =>
    flat_map (fun pk =>
      map (fun fk => {| ref_con := r; pkey := pk; fkey := fk |})
          (filter (fkey_on r) (information_schema_key_column_usage conn)))
      (filter (pkey_on r) (information_schema_key_column_usage conn)))
    (information_schema_referential_constraints conn).

(** [tab.table_catalog = fkey.table_catalog AND tab.table_schema =
    fkey.table_schema AND tab.table_name = fkey.table_name]. *)
Definition tab_on (j : fkey_join_row) (tab : tables_row) : bool :=
  ((tab_table_catalog tab =? kcu_table_catalog (fkey j)) &&
   (tab_table_schema tab =? kcu_table_schema (fkey j)) &&
   (tab_table_name tab =? kcu_table_name (fkey j)))%string.

(** [dep.child_catalog = pkey.table_catalog AND dep.child_schema =
    pkey.table_schema AND dep.child_name = pkey.table_name]. *)
Definition dep_on (j : fkey_join_row) (dep : dependency) : bool :=
  ((child_catalog dep =? kcu_table_catalog (pkey j)) &&
   (child_schema dep =? kcu_table_schema (pkey j)) &&
   (child_name dep =? kcu_table_name (pkey j)))%string.

(** [l RIGHT JOIN r ON on]: every row of [r] is kept; one without a partner
    gets [NULL]s on the left. *)
Definition right_join_row {A B : Type} (on : A -> B -> bool) (l : list A) (b : B)
  : list (option A * B) :=
  match filter (fun a => on a b) l with
  | [] => [(None, b)]
  | ms => map (fun a => (Some a, b)) ms
  end.

Definition right_join {A B : Type} (on : A -> B -> bool) (l : list A) (r : list B)
  : list (option A * B) :=
  flat_map (right_join_row on l) r.

(** [tab.table_catalog = CURRENT_CATALOG AND tab.table_schema = $1]. *)
Definition in_target_schema (conn : DatabaseClient) (db_schema : string) (tab : tables_row) : bool :=
  ((tab_table_catalog tab =? CURRENT_CATALOG conn) &&
   (tab_table_schema tab =? db_schema))%string.

Definition is_null {A : Type} (x : option A) : bool :=
  match x with
  | None => true
  | Some _ => false
  end.

(** The [WHERE] clause and the [SELECT] list of the non-recursive term, on
    a row of the join. *)
Definition initial_select (conn : DatabaseClient) (db_schema : string)
    (row : option fkey_join_row * tables_row) : list dependency :=
  let (j, tab) := row in
  let pkey_table_catalog := option_map (fun j => kcu_table_catalog (pkey j)) j in
  let pkey_table_schema := option_map (fun j => kcu_table_schema (pkey j)) j in
  let pkey_table_name := option_map (fun j => kcu_table_name (pkey j)) j in
  if in_target_schema conn db_schema tab &&
     is_null pkey_table_catalog && is_null pkey_table_schema && is_null pkey_table_name
  then [ {| depth := 1;
            parent_catalog := pkey_table_catalog;
            parent_schema := pkey_table_schema;
            parent_name := pkey_table_name;
            child_catalog := tab_table_catalog tab;
            child_schema := tab_table_schema tab;
            child_name := tab_table_name tab |} ]
  else [].

(** The non-recursive term: "tables that have no foreign keys". *)
Definition initial_term (conn : DatabaseClient) (db_schema : string) : list dependency :=
  flat_map (initial_select conn db_schema)
    (right_join tab_on (fkey_join conn) (information_schema_tables conn)).

(** PostgreSQL's [integer]: [depth] is one, and [dep.depth + 1] fails with
    "integer out of range" past this bound. *)
Definition INT_MAX : Z := 2147483647.

Definition integer_add (a b : Z) : result Z :=
  if a + b <=? INT_MAX then Ok (a + b) else Raise (QueryError "integer out of range").

(** The [FROM] and [WHERE] clauses of the recursive term, evaluated on the
    working table [dep]: a row for every foreign-key row whose referenced
    table is a child of [dep] and whose referencing table is in the target
    schema. *)
Definition recursive_join (conn : DatabaseClient) (db_schema : string) (dep : list dependency)
  : list (fkey_join_row * tables_row * dependency) :=
  filter (fun row : fkey_join_row * tables_row * dependency =>
            let '(j, tab, d) := row in in_target_schema conn db_schema tab)
    (flat_map (fun j =>
       flat_map (fun tab =>
         map (fun d => (j, tab, d)) (filter (dep_on j) dep))
         (filter (tab_on j) (information_schema_tables conn)))
       (fkey_join conn)).

(** Its [SELECT] list. *)
Definition recursive_select (row : fkey_join_row * tables_row * dependency)
  : result dependency :=
  let '(j, tab, d) := row in
  depth' <- integer_add (depth d) 1 ;;
  Ok {| depth := depth';
        parent_catalog := Some (child_catalog d);
        parent_schema := Some (child_schema d);
        parent_name := Some (child_name d);
        child_catalog := tab_table_catalog tab;
        child_schema := tab_table_schema tab;
        child_name := tab_table_name tab |}.

(** The recursive term: "tables that only depend on tables returned by the
    previous recursion steps". *)
Definition recursive_term (conn : DatabaseClient) (db_schema : string) (dep : list dependency)
  : result (list dependency) :=
  mapM recursive_select (recursive_join conn db_schema dep).

(** [WITH RECURSIVE ... UNION ALL]: the working table starts as the
    non-recursive term; as long as it is not empty its rows go to the result
    and the recursive term evaluated on it becomes the next working table.
    [None]: the iteration has not come to an end within [fuel] steps. *)
Fixpoint with_recursive (fuel : nat) (conn : DatabaseClient) (db_schema : string)
    (working : list dependency) : option (result (list dependency)) :=
  match working with
  | [] => Some (Ok [])
  | _ :: _ =>
      match fuel with
      | O => None
      | S fuel' =>
          match recursive_term conn db_schema working with
          | Raise e => Some (Raise e)
          | Ok next =>
              match with_recursive fuel' conn db_schema next with
              | None => None
              | Some (Raise e) => Some (Raise e)
              | Some (Ok rest) => Some (Ok (working ++ rest)%list)
              end
          end
      end
  end.

Definition dependencies (fuel : nat) (conn : DatabaseClient) (db_schema : string)
  : option (result (list dependency)) :=
  with_recursive fuel conn db_schema (initial_term conn db_schema).

(** [MIN(depth)] of the group of [name]. *)
Definition min_depth (name : string) (rows : list dependency) : Z :=
  match map depth (filter (fun r => (child_name r =? name)%string) rows) with
  | [] => 0
  | d :: ds => fold_left Z.min ds d
  end.

(** [GROUP BY child_name]: one group for every distinct name, with its
    [MIN(depth)]. *)
Definition group_by_child_name (rows : list dependency) : list (string * Z) :=
  map (fun name => (name, min_depth name rows))
      (nodup string_dec (map child_name rows)).

(** [ORDER BY MIN(depth), child_name].  Names are compared character by
    character by code, as under the "C" collation. *)
Definition order_by (g1 g2 : string * Z) : bool :=
  (snd g1 <? snd g2) || ((snd g1 =? snd g2) && String.leb (fst g1) (fst g2)).

Fixpoint insert_sorted {A : Type} (le : A -> A -> bool) (x : A) (l : list A) : list A :=
  match l with
  | [] => [x]
  | y :: l' => if le x y then x :: y :: l' else y :: insert_sorted le x l'
  end.

Definition sort {A : Type} (le : A -> A -> bool) (l : list A) : list A :=
  fold_right (insert_sorted le) [] l.

(** The groups of the query in the order it returns them, each with its
    [MIN(depth)]. *)
Definition ordered_groups (fuel : nat) (conn : DatabaseClient) (db_schema : string)
  : option (result (list (string * Z))) :=
  match dependencies fuel conn db_schema with
  | None => None
  | Some (Raise e) => Some (Raise e)
  | Some (Ok rows) => Some (Ok (sort order_by (group_by_child_name rows)))
  end.

(** [await self.conn.typed_fetch_column(str, query, self.db_schema)]: the
    selected column, [child_name]. *)
Definition typed_fetch_column_query (fuel : nat) (conn : DatabaseClient) (db_schema : string)
  : option (result (list string)) :=
  match ordered_groups fuel conn db_schema with
  | None => None
  | Some (Raise e) => Some (Raise e)
  | Some (Ok groups) => Some (Ok (map fst groups))
  end.

(** ** The type mapper *)

(** The Python types the mapper produces: [str], [bool], [int], [float],
    [datetime.date], [datetime.time] and [datetime.datetime]. *)
Inductive py_type : Type :=
| py_str
| py_bool
| py_int
| py_float
| datetime_date
| datetime_time
| datetime_datetime.

(** A field type: a plain type [T] or [Optional[T]]. *)
Inductive annotation : Type :=
| Plain (T : py_type)
| Optional (T : py_type).

(** [x in [s1, ..., sn]] on strings. *)
Definition str_in (x : string) (l : list string) : bool :=
  existsb (fun s => (x =? s)%string) l.

Definition _db_type_to_py_type (db_type : string) (is_nullable has_default : bool)
  : result (annotation * py_type) :=
  py_type <-
    (if str_in db_type ["character varying"; "text"] then Ok py_str
     else if str_in db_type ["boolean"] then Ok py_bool
     else if str_in db_type ["smallint"; "integer"; "bigint"] then Ok py_int
     else if str_in db_type ["real"; "double precision"] then Ok py_float
     else if str_in db_type ["date"] then Ok datetime_date
     else if str_in db_type ["time"; "time with time zone"; "time without time zone"]
       then Ok datetime_time
     else if str_in db_type
               ["timestamp"; "timestamp with time zone"; "timestamp without time zone"]
       then Ok datetime_datetime
     else Raise (UnrecognizedType db_type)) ;;
  if is_nullable && negb has_default
  then Ok (Optional py_type, py_type)
  else Ok (Plain py_type, py_type).

(** Modelled from the spec: [is_optional_type] of [pylinsql.base] is not
    among the sources; it tells the nullable wrapper from a bare type. *)
Definition is_optional_type (t : annotation) : bool :=
  match t with
  | Optional _ => true
  | Plain _ => false
  end.

(** Truth value of an optional boolean: [None] is false. *)
Definition truth (b : option bool) : bool :=
  match b with
  | Some true => true
  | _ => false
  end.

(** ** The schema model *)

(** The key classes of [pylinsql.schema], which is not among the sources;
    section 3 of the specification gives their fields. *)

Module Reference.
(** Modelled from the spec: [Reference] of [pylinsql.schema] is missing;
    a reference names the target table and its primary-key column. *)
Record t : Type := { table : string; column : string }.
End Reference.

Module ForeignKey.
(** Modelled from the spec: [ForeignKey] of [pylinsql.schema] is missing;
    a foreign key has a constraint name and a reference. *)
Record t : Type := { name : string; references : Reference.t }.
End ForeignKey.

(** Modelled from the spec: the column of a [PrimaryKey] is a single column
    name or an ordered list of column names. *)
Inductive key_columns : Type :=
| SingleColumn (column : string)
| CompositeColumns (columns : list string).

Module PrimaryKey.
(** Modelled from the spec: [PrimaryKey] of [pylinsql.schema] is missing;
    a primary key has a constraint name and its column or columns. *)
Record t : Type := { name : string; column : key_columns }.
End PrimaryKey.

Module ColumnSchema.
Record t (Value : Type) : Type := {
  name : string;
  data_type : annotation;
  default : option Value;
  description : option string;
  references : option ForeignKey.t
}.
Arguments name {Value} _.
Arguments data_type {Value} _.
Arguments default {Value} _.
Arguments description {Value} _.
Arguments references {Value} _.

(** [column.references = fk] *)
Definition set_references {Value : Type} (c : t Value) (fk : option ForeignKey.t) : t Value :=
  {| name := name c; data_type := data_type c; default := default c;
     description := description c; references := fk |}.
End ColumnSchema.

Module TableSchema.
Record t (Value : Type) : Type := {
  name : string;
  description : option string;
  columns : dict (ColumnSchema.t Value);
  primary_key : option PrimaryKey.t
}.
Arguments name {Value} _.
Arguments description {Value} _.
Arguments columns {Value} _.
Arguments primary_key {Value} _.

(** [table_schema.columns[key] = column], also the effect of assigning to
    an attribute of the column object stored under [key]. *)
Definition set_column {Value : Type} (ts : t Value) (key : string) (c : ColumnSchema.t Value)
  : t Value :=
  {| name := name ts; description := description ts;
     columns := dict_set (columns ts) key c; primary_key := primary_key ts |}.

(** [table_schema.primary_key = pk] *)
Definition set_primary_key {Value : Type} (ts : t Value) (pk : option PrimaryKey.t) : t Value :=
  {| name := name ts; description := description ts;
     columns := columns ts; primary_key := pk |}.
End TableSchema.

Module CatalogSchema.
Record t (Value : Type) : Type := {
  name : string;
  tables : dict (TableSchema.t Value)
}.
Arguments name {Value} _.
Arguments tables {Value} _.

(** [__bool__]: [bool(self.tables)], true for a dictionary with entries. *)
Definition __bool__ {Value : Type} (c : t Value) : bool :=
  match tables c with
  | [] => false
  | _ :: _ => true
  end.
End CatalogSchema.

(** ** Generated dataclasses *)

(** The default of a [dataclasses.Field]: the sentinel [MISSING], [None], or
    a value. *)
Inductive field_default (Value : Type) : Type :=
| MISSING
| DefaultNone
| DefaultValue (v : Value).
Arguments MISSING {Value}.
Arguments DefaultNone {Value}.
Arguments DefaultValue {Value} v.

Inductive metadata_value : Type :=
| MetaDescription (text : string)
| MetaForeignKey (fk : ForeignKey.t).

Module Field.
Record t (Value : Type) : Type := {
  default : field_default Value;
  metadata : option (dict metadata_value)
}.
Arguments default {Value} _.
Arguments metadata {Value} _.
End Field.

(** What the class attribute [primary_key] of a generated class can hold:
    the primary key that [table_to_dataclass] assigns, or the default of a
    field of that name, which the [dataclass] decorator leaves in the class
    as an attribute. *)
Inductive class_attribute (Value : Type) : Type :=
| PrimaryKeyAttribute (pk : PrimaryKey.t)
| DefaultAttribute (v : Value).
Arguments PrimaryKeyAttribute {Value} pk.
Arguments DefaultAttribute {Value} v.

(** A class made by [dataclasses.make_dataclass], with the attributes that
    [table_to_dataclass] sets on it; [fields] is what [dataclasses.fields]
    returns, in definition order, and [primary_key] is
    [getattr(typ, "primary_key", None)]. *)
Module DataClass.
Record t (Value : Type) : Type := {
  __name__ : string;
  fields : list (string * annotation * Field.t Value);
  __doc__ : option string;
  primary_key : option (class_attribute Value)
}.
Arguments __name__ {Value} _.
Arguments fields {Value} _.
Arguments __doc__ {Value} _.
Arguments primary_key {Value} _.
End DataClass.

(** [keyword.kwlist] of Python 3.7 and later. *)
Definition kwlist : list string :=
  ["False"; "None"; "True"; "and"; "as"; "assert"; "async"; "await"; "break";
   "class"; "continue"; "def"; "del"; "elif"; "else"; "except"; "finally";
   "for"; "from"; "global"; "if"; "import"; "in"; "is"; "lambda"; "nonlocal";
   "not"; "or"; "pass"; "raise"; "return"; "try"; "while"; "with"; "yield"].

Definition iskeyword (s : string) : bool := str_in s kwlist.

(** [f[2].default is not MISSING] *)
Definition has_default {Value : Type} (f : string * annotation * Field.t Value) : bool :=
  match Field.default (snd f) with
  | MISSING => false
  | _ => true
  end.

(** [list.sort(key=...)] with a boolean key: a stable sort, [False] before
    [True].  Insertion from the right, an element going past the elements
    whose key is strictly smaller only. *)
Fixpoint insert_by_key {A : Type} (key : A -> bool) (x : A) (l : list A) : list A :=
  match l with
  | [] => [x]
  | y :: l' =>
      if key x && negb (key y) then y :: insert_by_key key x l' else x :: y :: l'
  end.

Definition sort_by_key {A : Type} (key : A -> bool) (l : list A) : list A :=
  fold_right (insert_by_key key) [] l.

(** The class attribute [name] once the [dataclass] decorator has gone over
    the fields: the default of the field of that name, when it has one that
    is not [None]; a field without a default leaves no attribute. *)
Fixpoint default_attribute {Value : Type} (name : string)
    (fields : list (string * annotation * Field.t Value)) : option (class_attribute Value) :=
  match fields with
  | [] => None
  | f :: rest =>
      if (fst (fst f) =? name)%string
      then match Field.default (snd f) with
           | DefaultValue v => Some (DefaultAttribute v)
           | _ => None
           end
      else default_attribute name rest
  end.

Section Generator.
(** The Python values that column defaults are converted to. *)
Variable Value : Type.

(** The conversion of a default literal to a value of a primitive type,
    [typ(value)]; it may raise. *)
Variable parse_literal : py_type -> string -> result Value.

(** Modelled from the spec: [cast_if_not_none] of [pylinsql.base] is not
    among the sources.  It parses a non-null default literal into the
    resolved primitive type and leaves an absent default absent. *)
Definition cast_if_not_none (typ : py_type) (value : option string) : result (option Value) :=
  match value with
  | None => Ok None
  | Some literal => v <- parse_literal typ literal ;; Ok (Some v)
  end.

(** [str.isidentifier]. *)
Variable isidentifier : string -> bool.

(** [dataclasses.make_dataclass] puts every field into the body of the new
    class under its name, and [types.new_class] and the [dataclass]
    decorator take it from there.  A field name that means something to
    them ([__slots__], [__init__], [__qualname__], ...) can make them
    raise; what they do beyond the checks written out below is a
    parameter: the class name and the fields go in, and the class is made
    or an exception is raised. *)
Variable new_class : string -> list (string * annotation * Field.t Value) -> result unit.

(** *** The constraint resolver *)

(** The body of the loop of [_set_foreign_keys], on one constraint row. *)
Definition _set_foreign_key (table_schema : TableSchema.t Value)
    (constraint : _ReferenceConstraint) : result (TableSchema.t Value) :=
  if negb (foreign_key_schema constraint =? primary_key_schema constraint)%string
  then Raise (CrossSchemaReferenceError (foreign_key_schema constraint)
                                        (primary_key_schema constraint))
  else
    column <- dict_getitem (TableSchema.columns table_schema)
                           (foreign_key_column constraint) ;;
    match ColumnSchema.references column with
    | Some _ => Raise (DuplicateForeignKeyError (ColumnSchema.name column))
    | None =>
        Ok (TableSchema.set_column table_schema (foreign_key_column constraint)
              (ColumnSchema.set_references column
                 (Some {| ForeignKey.name := foreign_key_name constraint;
                          ForeignKey.references :=
                            {| Reference.table := primary_key_table constraint;
                               Reference.column := primary_key_column constraint |} |})))
    end.

(** [for constraint in constraints: ...] *)
Fixpoint _set_foreign_keys_loop (constraints : list _ReferenceConstraint)
    (table_schema : TableSchema.t Value) : result (TableSchema.t Value) :=
  match constraints with
  | [] => Ok table_schema
  | constraint :: rest =>
      table_schema' <- _set_foreign_key table_schema constraint ;;
      _set_foreign_keys_loop rest table_schema'
  end.

Definition _set_foreign_keys (conn : DatabaseClient) (db_schema : string)
    (table_schema : TableSchema.t Value) : result (TableSchema.t Value) :=
  let constraints :=
    fetch_reference_constraints conn db_schema (TableSchema.name table_schema) in
  _set_foreign_keys_loop constraints table_schema.

(** [l[i]] *)
Definition getitem {A : Type} (l : list A) (i : nat) : result A :=
  match nth_error l i with
  | Some x => Ok x
  | None => Raise IndexError
  end.

Definition _set_unique_keys (conn : DatabaseClient) (db_schema : string)
    (table_schema : TableSchema.t Value) : result (TableSchema.t Value) :=
  let constraints :=
    fetch_unique_constraints conn db_schema (TableSchema.name table_schema) in
  if (1 <? List.length constraints)%nat then
    first <- getitem constraints 0 ;;
    Ok (TableSchema.set_primary_key table_schema
          (Some {| PrimaryKey.name := key_name first;
                   PrimaryKey.column := CompositeColumns (map key_column constraints) |}))
  else if (0 <? List.length constraints)%nat then
    first <- getitem constraints 0 ;;
    Ok (TableSchema.set_primary_key table_schema
          (Some {| PrimaryKey.name := key_name first;
                   PrimaryKey.column := SingleColumn (key_column first) |}))
  else
    Ok (TableSchema.set_primary_key table_schema None).

(** *** The table schema loader *)

(** The body of the loop over the column records. *)
Definition _add_column (column_schemas : dict (ColumnSchema.t Value))
    (column : column_record) : result (dict (ColumnSchema.t Value)) :=
  types <- _db_type_to_py_type (data_type column) (truth (is_nullable column))
                               (negb (is_null (column_default column))) ;;
  let (outer_type, value_type) := types : annotation * py_type in
  default <- cast_if_not_none value_type (column_default column) ;;
  let column_schema :=
    {| ColumnSchema.name := column_name column;
       ColumnSchema.data_type := outer_type;
       ColumnSchema.default := default;
       ColumnSchema.description := description column;
       ColumnSchema.references := None |} in
  Ok (dict_set column_schemas (ColumnSchema.name column_schema) column_schema).

Fixpoint _add_columns (columns : list column_record)
    (column_schemas : dict (ColumnSchema.t Value)) : result (dict (ColumnSchema.t Value)) :=
  match columns with
  | [] => Ok column_schemas
  | column :: rest =>
      column_schemas' <- _add_column column_schemas column ;;
      _add_columns rest column_schemas'
  end.

Definition _get_table_schema (conn : DatabaseClient) (db_schema db_table : string)
  : result (TableSchema.t Value) :=
  let description := fetch_table_description conn db_schema db_table in
  let columns := fetch_columns conn db_schema db_table in
  column_schemas <- _add_columns columns [] ;;
  let table_schema :=
    {| TableSchema.name := db_table;
       TableSchema.description := description;
       TableSchema.columns := column_schemas;
       TableSchema.primary_key := None |} in
  table_schema <- _set_foreign_keys conn db_schema table_schema ;;
  table_schema <- _set_unique_keys conn db_schema table_schema ;;
  Ok table_schema.

(** *** The catalog schema builder *)

Definition get_catalog_schema (fuel : nat) (conn : DatabaseClient) (db_schema : string)
  : option (result (CatalogSchema.t Value)) :=
  match typed_fetch_column_query fuel conn db_schema with
  | None => None
  | Some (Raise e) => Some (Raise e)
  | Some (Ok tables) =>
      Some (table_schemas <- mapM (_get_table_schema conn db_schema) tables ;;
            let table_schema_map :=
              dict_of (map (fun table => (TableSchema.name table, table)) table_schemas) in
            Ok {| CatalogSchema.name := db_schema;
                  CatalogSchema.tables := table_schema_map |})
  end.

(** *** From the schema model to dataclasses *)

Definition column_to_field (column : ColumnSchema.t Value)
  : string * annotation * Field.t Value :=
  let field_name :=
    if iskeyword (ColumnSchema.name column)
    then (ColumnSchema.name column ++ "_")%string
    else ColumnSchema.name column in
  let metadata : dict metadata_value := [] in
  let metadata :=
    match ColumnSchema.description column with
    | Some text => dict_set metadata "description" (MetaDescription text)
    | None => metadata
    end in
  let metadata :=
    match ColumnSchema.references column with
    | Some fk => dict_set metadata "foreign_key" (MetaForeignKey fk)
    | None => metadata
    end in
  let default :=
    match ColumnSchema.default column with
    | Some v => DefaultValue v
    | None =>
        if is_optional_type (ColumnSchema.data_type column) then DefaultNone else MISSING
    end in
  (field_name,
   ColumnSchema.data_type column,
   {| Field.default := default;
      Field.metadata := match metadata with [] => None | _ :: _ => Some metadata end |}).

(** The checks of [dataclasses.make_dataclass] on the field names, field by
    field, [seen] being the names met so far. *)
Fixpoint check_field_names (seen : list string)
    (fields : list (string * annotation * Field.t Value)) : result unit :=
  match fields with
  | [] => Ok tt
  | f :: rest =>
      let name := fst (fst f) in
      if negb (isidentifier name)
      then Raise (TypeError "Field names must be valid identifiers" name)
      else if iskeyword name
      then Raise (TypeError "Field names must not be keywords" name)
      else if str_in name seen
      then Raise (TypeError "Field name duplicated" name)
      else check_field_names (name :: seen) rest
  end.

(** The check of the generated [__init__]: no field without a default
    after one with a default. *)
Fixpoint check_defaults_last (seen_default : bool)
    (fields : list (string * annotation * Field.t Value)) : result unit :=
  match fields with
  | [] => Ok tt
  | f :: rest =>
      if has_default f then check_defaults_last true rest
      else if seen_default
      then Raise (TypeError "non-default argument follows default argument" (fst (fst f)))
      else check_defaults_last seen_default rest
  end.

(** The docstring that the decorator writes is replaced by
    [table_to_dataclass] before anything reads it; it is left out. *)
Definition make_dataclass (cls_name : string)
    (fields : list (string * annotation * Field.t Value)) : result (DataClass.t Value) :=
  _ <- check_field_names [] fields ;;
  _ <- new_class cls_name fields ;;
  _ <- check_defaults_last false fields ;;
  Ok {| DataClass.__name__ := cls_name;
        DataClass.fields := fields;
        DataClass.__doc__ := None;
        DataClass.primary_key := default_attribute "primary_key" fields |}.

(** The list [fields] of [table_to_dataclass] after [fields.sort(...)]. *)
Definition sorted_fields (table : TableSchema.t Value)
  : list (string * annotation * Field.t Value) :=
  let fields := map column_to_field (dict_values (TableSchema.columns table)) in
  sort_by_key has_default fields.

Definition table_to_dataclass (table : TableSchema.t Value) : result (DataClass.t Value) :=
  let fields := sorted_fields table in
  let class_name :=
    if iskeyword (TableSchema.name table)
    then (TableSchema.name table ++ "_")%string
    else TableSchema.name table in
  typ <- make_dataclass class_name fields ;;
  Ok {| DataClass.__name__ := DataClass.__name__ typ;
        DataClass.fields := DataClass.fields typ;
        DataClass.__doc__ := TableSchema.description table;
        DataClass.primary_key :=
          match TableSchema.primary_key table with
          | Some pk => Some (PrimaryKeyAttribute pk)
          | None => DataClass.primary_key typ
          end |}.

Definition catalog_to_dataclasses (catalog : CatalogSchema.t Value)
  : result (list (DataClass.t Value)) :=
  mapM table_to_dataclass (dict_values (CatalogSchema.tables catalog)).

(** [main] up to the list of generated types; writing them out as source
    text follows. *)
Definition main (fuel : nat) (conn : DatabaseClient) (db_schema : string)
  : option (result (list (DataClass.t Value))) :=
  match get_catalog_schema fuel conn db_schema with
  | None => None
  | Some r =>
      Some (catalog <- r ;;
            if negb (CatalogSchema.__bool__ catalog)
            then Raise (EmptySchemaError db_schema)
            else catalog_to_dataclasses catalog)
  end.
End Generator.

Arguments cast_if_not_none {Value} parse_literal typ value.
Arguments _set_foreign_key {Value} table_schema constraint.
Arguments _set_foreign_keys_loop {Value} constraints table_schema.
Arguments _set_foreign_keys {Value} conn db_schema table_schema.
Arguments _set_unique_keys {Value} conn db_schema table_schema.
Arguments _add_column {Value} parse_literal column_schemas column.
Arguments _add_columns {Value} parse_literal columns column_schemas.
Arguments _get_table_schema {Value} parse_literal conn db_schema db_table.
Arguments get_catalog_schema {Value} parse_literal fuel conn db_schema.
Arguments column_to_field {Value} column.
Arguments check_field_names {Value} isidentifier seen fields.
Arguments check_defaults_last {Value} seen_default fields.
Arguments make_dataclass {Value} isidentifier new_class cls_name fields.
Arguments sorted_fields {Value} table.
Arguments table_to_dataclass {Value} isidentifier new_class table.
Arguments catalog_to_dataclasses {Value} isidentifier new_class catalog.
Arguments main {Value} parse_literal isidentifier new_class fuel conn db_schema.

(** *** Example schemas *)

Definition table (name : string) : tables_row :=
  {| tab_table_catalog := "db"; tab_table_schema := "public"; tab_table_name := name |}.

Definition pkey_usage (tab : string) : key_column_usage_row :=
  {| kcu_constraint_catalog := "db"; kcu_constraint_schema := "public";
     kcu_constraint_name := tab ++ "_pkey";
     kcu_table_catalog := "db"; kcu_table_schema := "public";
     kcu_table_name := tab; kcu_column_name := "id" |}.

(** A foreign key [from.to_id -> to.id]. *)
Definition fkey_usage (from to : string) : key_column_usage_row :=
  {| kcu_constraint_catalog := "db"; kcu_constraint_schema := "public";
     kcu_constraint_name := from ++ "_" ++ to ++ "_fkey";
     kcu_table_catalog := "db"; kcu_table_schema := "public";
     kcu_table_name := from; kcu_column_name := to ++ "_id" |}.

Definition fkey_constraint (from to : string) : referential_constraints_row :=
  {| ref_constraint_catalog := "db"; ref_constraint_schema := "public";
     ref_constraint_name := from ++ "_" ++ to ++ "_fkey";
     ref_unique_constraint_catalog := "db"; ref_unique_constraint_schema := "public";
     ref_unique_constraint_name := to ++ "_pkey" |}.

Definition pkey_of (tab : string) : pg_constraint_row :=
  {| connamespace := "public"; conname := tab ++ "_pkey"; conrelname := tab;
     conkey := ["id"]; contype := primary_key |}.

Definition fkey_of (from to : string) : pg_constraint_row :=
  {| connamespace := "public"; conname := from ++ "_" ++ to ++ "_fkey";
     conrelname := from; conkey := [to ++ "_id"];
     contype := foreign_key "public" to (to ++ "_pkey") |}.

(** A database [db] whose schema [public] has the tables [names], each with a
    primary key [id], and a foreign key for every pair of [fkeys]. *)
Definition example_db (names : list string) (fkeys : list (string * string)) : DatabaseClient :=
  {| CURRENT_CATALOG := "db";
     pg_constraint :=
       (map pkey_of names ++ map (fun e => fkey_of (fst e) (snd e)) fkeys)%list;
     information_schema_tables := map table names;
     information_schema_referential_constraints :=
       map (fun e => fkey_constraint (fst e) (snd e)) fkeys;
     information_schema_key_column_usage :=
       (map pkey_usage names ++ map (fun e => fkey_usage (fst e) (snd e)) fkeys)%list;
     fetch_table_description := fun _ _ => None;
     fetch_columns := fun _ _ => [];
     fetch_unique_constraints := fun _ _ => [];
     fetch_reference_constraints := fun _ _ => [] |}.

(** *** The constraint views of PostgreSQL *)

(** [information_schema.key_column_usage] has a row for every column of
    every key constraint, and [information_schema.referential_constraints]
    a row for every foreign key; all in the current database, a constraint
    in the schema of its table. *)
Definition key_column_usage_of (conn : DatabaseClient) (c : pg_constraint_row)
  : list key_column_usage_row :=
  map (fun column =>
         {| kcu_constraint_catalog := CURRENT_CATALOG conn;
            kcu_constraint_schema := connamespace c;
            kcu_constraint_name := conname c;
            kcu_table_catalog := CURRENT_CATALOG conn;
            kcu_table_schema := connamespace c;
            kcu_table_name := conrelname c;
            kcu_column_name := column |})
      (conkey c).

Definition referential_constraints_of (conn : DatabaseClient) (c : pg_constraint_row)
  : list referential_constraints_row :=
  match contype c with
  | foreign_key confnamespace _ confconname =>
      [{| ref_constraint_catalog := CURRENT_CATALOG conn;
          ref_constraint_schema := connamespace c;
          ref_constraint_name := conname c;
          ref_unique_constraint_catalog := CURRENT_CATALOG conn;
          ref_unique_constraint_schema := confnamespace;
          ref_unique_constraint_name := confconname |}]
  | _ => []
  end.

(** The two views hold the rows of the constraints of [pg_constraint], in
    whatever order, the connected role being one that may see them all. *)
Definition information_schema_views (conn : DatabaseClient) : Prop :=
  (forall row, In row (information_schema_key_column_usage conn) <->
               In row (flat_map (key_column_usage_of conn) (pg_constraint conn))) /\
  (forall row, In row (information_schema_referential_constraints conn) <->
               In row (flat_map (referential_constraints_of conn) (pg_constraint conn))).

Definition is_key (c : pg_constraint_row) : bool :=
  match contype c with
  | foreign_key _ _ _ => false
  | _ => true
  end.

(** [c] is the constraint [name] of the table [tab] of the schema [schema]. *)
Definition constraint_of (schema tab name : string) (c : pg_constraint_row) : bool :=
  ((connamespace c =? schema) && (conrelname c =? tab) && (conname c =? name))%string.

(** What PostgreSQL sees to: a key constraint has a column, and a foreign
    key rests on a primary-key or unique constraint of the table that it
    references. *)
Definition valid_constraint (conn : DatabaseClient) (c : pg_constraint_row) : bool :=
  match conkey c with [] => false | _ :: _ => true end &&
  match contype c with
  | foreign_key confnamespace confrelname confconname =>
      existsb (fun k => constraint_of confnamespace confrelname confconname k && is_key k)
              (pg_constraint conn)
  | _ => true
  end.

Definition valid_constraints (conn : DatabaseClient) : bool :=
  forallb (valid_constraint conn) (pg_constraint conn).

(** The state of a PostgreSQL database, as far as the dependency query
    reads it. *)
Definition postgres_catalog (conn : DatabaseClient) : Prop :=
  information_schema_views conn /\ valid_constraints conn = true.

(** What PostgreSQL does not see to, a constraint name being unique among
    the constraints of one table only: no two tables of the schema have key
    constraints of the same name. *)
Definition unique_constraint_names (conn : DatabaseClient) (db_schema : string) : bool :=
  forallb (fun c =>
    forallb (fun c' =>
      implb ((connamespace c =? db_schema) && (connamespace c' =? db_schema) &&
             (conname c =? conname c'))%string
            (conrelname c =? conrelname c')%string)
      (pg_constraint conn))
    (pg_constraint conn).

(** *** The foreign-key graph of the target schema *)

Definition same_table (c s n c' s' n' : string) : bool :=
  ((c =? c') && (s =? s') && (n =? n'))%string.

(** The target schema has a table [name]. *)
Definition is_table (conn : DatabaseClient) (db_schema name : string) : bool :=
  existsb (fun tab => in_target_schema conn db_schema tab &&
                      (tab_table_name tab =? name)%string)
          (information_schema_tables conn).

(** [c] is a foreign key of the table [a] of the target schema. *)
Definition foreign_key_on (db_schema a : string) (c : pg_constraint_row) : bool :=
  ((connamespace c =? db_schema) && (conrelname c =? a))%string && negb (is_key c).

(** [c] references the table [b] of the target schema. *)
Definition foreign_key_to (db_schema b : string) (c : pg_constraint_row) : bool :=
  match contype c with
  | foreign_key confnamespace confrelname _ =>
      ((confnamespace =? db_schema) && (confrelname =? b))%string
  | _ => false
  end.

(** Table [a] of the target schema has a foreign key, to whatever table. *)
Definition has_foreign_key (conn : DatabaseClient) (db_schema a : string) : bool :=
  existsb (foreign_key_on db_schema a) (pg_constraint conn).

(** Table [a] references table [b], both of the target schema. *)
Definition foreign_key_edge (conn : DatabaseClient) (db_schema a b : string) : bool :=
  existsb (fun c => foreign_key_on db_schema a c && foreign_key_to db_schema b c)
          (pg_constraint conn).

(** From [t] a chain of foreign keys leads to a table without foreign keys. *)
Inductive reaches_root (conn : DatabaseClient) (db_schema : string) : string -> Prop :=
| reaches_root_here t :
    is_table conn db_schema t = true ->
    has_foreign_key conn db_schema t = false ->
    reaches_root conn db_schema t
| reaches_root_step a b :
    is_table conn db_schema a = true ->
    foreign_key_edge conn db_schema a b = true ->
    reaches_root conn db_schema b ->
    reaches_root conn db_schema a.



(** *** The graph that the join of the query makes of the views *)


(** The join has a row whose referencing side is of the table [a] and whose
    referenced side [pkey] is of the table [b], both of the target schema. *)
Definition fkey_pkey_joined (conn : DatabaseClient) (db_schema a b : string) : bool :=
  existsb (fun j => same_table (kcu_table_catalog (fkey j)) (kcu_table_schema (fkey j))
                               (kcu_table_name (fkey j))
                               (CURRENT_CATALOG conn) db_schema a &&
                    same_table (kcu_table_catalog (pkey j)) (kcu_table_schema (pkey j))
                               (kcu_table_name (pkey j))
                               (CURRENT_CATALOG conn) db_schema b)
          (fkey_join conn).


(** The working table of the [n]-th step of the recursion. *)
Fixpoint working_table (n : nat) (conn : DatabaseClient) (db_schema : string)
  : result (list dependency) :=
  match n with
  | O => Ok (initial_term conn db_schema)
  | S n' => dep <- working_table n' conn db_schema ;; recursive_term conn db_schema dep
  end.


(** Position of a name in the output. *)
Fixpoint position (name : string) (l : list string) : option nat :=
  match l with
  | [] => None
  | x :: l' => if (x =? name)%string then Some O else option_map S (position name l')
  end.

(** The ordering property: a referenced table comes before the table that
    references it, when both are in the output. *)
Definition ordering_property (conn : DatabaseClient) (db_schema : string)
    (out : list string) : Prop :=
  forall a b i j,
    foreign_key_edge conn db_schema a b = true ->
    position a out = Some i ->
    position b out = Some j ->
    (j < i)%nat.

(** [orders] references [customer]; [invoice] references both. *)
Definition invoice_db : DatabaseClient :=
  example_db ["customer"; "invoice"; "orders"]
             [("orders", "customer"); ("invoice", "orders"); ("invoice", "customer")].





(** A schema without tables. *)
Definition empty_db : DatabaseClient := example_db [] [].

(** *** The lookup table of the type mapper, as the specification has it *)

Definition lookup_table : list (string * py_type) :=
  [("character varying", py_str); ("text", py_str);
   ("boolean", py_bool);
   ("smallint", py_int); ("integer", py_int); ("bigint", py_int);
   ("real", py_float); ("double precision", py_float);
   ("date", datetime_date);
   ("time", datetime_time); ("time with time zone", datetime_time);
   ("time without time zone", datetime_time);
   ("timestamp", datetime_datetime); ("timestamp with time zone", datetime_datetime);
   ("timestamp without time zone", datetime_datetime)].

Definition recognized (db_type : string) : Prop := In db_type (map fst lookup_table).

(** *** Constraint rows *)

(** Two rows of [constraints], the second after the first, name the same
    foreign-key column. *)
Definition same_column_twice (constraints : list _ReferenceConstraint) : Prop :=
  exists before first between second after,
    constraints = (before ++ first :: between ++ second :: after)%list /\
    foreign_key_column first = foreign_key_column second.

(** The column stored under [key] carries a foreign key. *)
Definition has_reference {Value : Type} (table_schema : TableSchema.t Value) (key : string)
  : Prop :=
  exists column fk,
    dict_get (TableSchema.columns table_schema) key = Some column /\
    ColumnSchema.references column = Some fk.

(** *** Example tables *)

(** Default values kept as the literal text. *)
Definition keep_literal (typ : py_type) (literal : string) : result string := Ok literal.

Definition any_name (name : string) : bool := true.

(** A class machinery that makes every class. *)
Definition any_class {Value : Type} (cls_name : string)
    (fields : list (string * annotation * Field.t Value)) : result unit := Ok tt.

Definition a_column (name type : string) (nullable : bool) (default : option string)
  : column_record :=
  {| column_name := name; is_nullable := Some nullable; data_type := type;
     column_default := default; character_maximum_length := None;
     is_identity := Some false; description := None |}.

(** A foreign key of [public.t] on [column], to [to_schema.to_table(id)]. *)
Definition a_reference (column to_schema to_table : string) : _ReferenceConstraint :=
  {| foreign_key_name := "t_" ++ column ++ "_fkey";
     foreign_key_schema := "public"; foreign_key_table := "t";
     foreign_key_column := column;
     primary_key_schema := to_schema; primary_key_table := to_table;
     primary_key_column := "id" |}.

(** A database whose schema [public] has the one table [t], with the given
    answers to the queries about it. *)
Definition table_db (columns : list column_record)
    (references : list _ReferenceConstraint) (keys : list _UniqueConstraint)
  : DatabaseClient :=
  {| CURRENT_CATALOG := "db";
     pg_constraint := [];
     information_schema_tables := [table "t"];
     information_schema_referential_constraints := [];
     information_schema_key_column_usage := [];
     fetch_table_description := fun _ _ => None;
     fetch_columns := fun _ _ => columns;
     fetch_unique_constraints := fun _ _ => keys;
     fetch_reference_constraints := fun _ _ => references |}.

(** Column [x] has two foreign keys, the second into another schema. *)
Definition two_keys_one_foreign_db : DatabaseClient :=
  table_db [a_column "x" "integer" false None]
           [a_reference "x" "public" "p"; a_reference "x" "other" "q"] [].

(** Column [x] has two foreign keys within the schema. *)
Definition two_keys_db : DatabaseClient :=
  table_db [a_column "x" "integer" false None]
           [a_reference "x" "public" "p"; a_reference "x" "public" "q"] [].

(** Column [x] has two foreign keys within the schema, column [y] one into
    another schema. *)
Definition two_keys_then_foreign_db : DatabaseClient :=
  table_db [a_column "x" "integer" false None; a_column "y" "integer" false None]
           [a_reference "x" "public" "p"; a_reference "x" "public" "q";
            a_reference "y" "other" "r"] [].

(** Column [y] has a foreign key into another schema. *)
Definition foreign_key_db : DatabaseClient :=
  table_db [a_column "x" "integer" false None; a_column "y" "integer" false None]
           [a_reference "x" "public" "p"; a_reference "y" "other" "r"] [].

(** The second column has a type the mapper does not know. *)
Definition uuid_column_db : DatabaseClient :=
  table_db [a_column "id" "integer" false None; a_column "token" "uuid" false None] [] [].

(** Columns with and without defaults, nullable and not. *)
Definition mixed_db : DatabaseClient :=
  table_db [a_column "id" "integer" false None;
            a_column "note" "text" true None;
            a_column "name" "text" false None;
            a_column "count" "integer" true (Some "0");
            a_column "day" "date" false None] [] [].

(** The table [t] of the examples as [_get_table_schema] hands it to the
    foreign-key pass. *)
Definition loaded_columns (columns : list column_record) : TableSchema.t string :=
  {| TableSchema.name := "t";
     TableSchema.description := None;
     TableSchema.columns :=
       match _add_columns keep_literal columns [] with
       | Ok column_schemas => column_schemas
       | Raise _ => []
       end;
     TableSchema.primary_key := None |}.

(** *** Chains of foreign keys, cycles, and the order of the output *)











(** *** Loading tables and making dataclasses *)

(** The foreign key that [_set_foreign_keys] makes of a constraint row. *)
Definition foreign_key_of (constraint : _ReferenceConstraint) : ForeignKey.t :=
  {| ForeignKey.name := foreign_key_name constraint;
     ForeignKey.references :=
       {| Reference.table := primary_key_table constraint;
          Reference.column := primary_key_column constraint |} |}.

(** A row that the foreign-key pass can attach to [table_schema]: it stays
    within one schema and names a column that has no foreign key. *)
Definition attachable {Value : Type} (table_schema : TableSchema.t Value)
    (constraint : _ReferenceConstraint) : Prop :=
  foreign_key_schema constraint = primary_key_schema constraint /\
  exists column,
    dict_get (TableSchema.columns table_schema) (foreign_key_column constraint)
      = Some column /\
    ColumnSchema.references column = None.

(** Two columns that differ in nothing but their foreign key. *)
Definition same_but_references {Value : Type} (c c' : ColumnSchema.t Value) : Prop :=
  ColumnSchema.name c' = ColumnSchema.name c /\
  ColumnSchema.data_type c' = ColumnSchema.data_type c /\
  ColumnSchema.default c' = ColumnSchema.default c /\
  ColumnSchema.description c' = ColumnSchema.description c.

(** The entry of the column dictionary that [_get_table_schema] makes of a
    column record, before foreign keys are attached. *)
Definition loaded_from {Value : Type} (parse_literal : py_type -> string -> result Value)
    (record : column_record) (entry : string * ColumnSchema.t Value) : Prop :=
  fst entry = column_name record /\
  ColumnSchema.name (snd entry) = column_name record /\
  ColumnSchema.description (snd entry) = description record /\
  exists T,
    In (data_type record, T) lookup_table /\
    ColumnSchema.data_type (snd entry)
      = (if truth (is_nullable record) && is_null (column_default record)
         then Optional T else Plain T) /\
    cast_if_not_none parse_literal T (column_default record)
      = Ok (ColumnSchema.default (snd entry)).

(** The name of a generated field, and the name of the class generated for
    a table. *)
Definition field_name {Value : Type} (f : string * annotation * Field.t Value) : string :=
  fst (fst f).

Definition class_name (table_name : string) : string :=
  if iskeyword table_name then (table_name ++ "_")%string else table_name.

(** A conversion of literals that rejects a function call. *)
Definition reject_now (typ : py_type) (literal : string) : result string :=
  if (literal =? "now()")%string
  then Raise (TypeError "an integer is required" literal)
  else Ok literal.

(** Two tables without foreign keys; the column of [b] has a type the
    mapper does not know. *)
Definition two_tables_db : DatabaseClient :=
  {| CURRENT_CATALOG := "db";
     pg_constraint := [];
     information_schema_tables := [table "a"; table "b"];
     information_schema_referential_constraints := [];
     information_schema_key_column_usage := [];
     fetch_table_description := fun _ _ => None;
     fetch_columns := fun _ table =>
       if (table =? "b")%string then [a_column "token" "uuid" false None]
       else [a_column "id" "integer" false None];
     fetch_unique_constraints := fun _ _ => [];
     fetch_reference_constraints := fun _ _ => [] |}.

(** A table with a keyword for a name and a keyword among its columns. *)
Definition keyword_db : DatabaseClient :=
  {| CURRENT_CATALOG := "db";
     pg_constraint := [];
     information_schema_tables := [table "class"; table "pupil"];
     information_schema_referential_constraints := [];
     information_schema_key_column_usage := [];
     fetch_table_description := fun _ _ => None;
     fetch_columns := fun _ _ =>
       [a_column "id" "integer" false None; a_column "from" "date" true None];
     fetch_unique_constraints := fun _ _ => [];
     fetch_reference_constraints := fun _ _ => [] |}.

(** The column [created] has a default that is a function call. *)
Definition default_call_db : DatabaseClient :=
  table_db [a_column "id" "integer" false None;
            a_column "created" "timestamp" true (Some "now()")] [] [].

(** The table [class] of [keyword_db], loaded. *)
Definition keyword_table : TableSchema.t string :=
  {| TableSchema.name := "class";
     TableSchema.description := None;
     TableSchema.columns :=
       TableSchema.columns
         (loaded_columns [a_column "id" "integer" false None;
                          a_column "from" "date" true None]);
     TableSchema.primary_key := None |}.

(** A nullable date column without default, description or foreign key. *)
Definition date_column (name : string) : ColumnSchema.t string :=
  {| ColumnSchema.name := name;
     ColumnSchema.data_type := Optional datetime_date;
     ColumnSchema.default := None;
     ColumnSchema.description := None;
     ColumnSchema.references := None |}.

(** A database [db] with the given tables and key constraints in its
    schema [public], the views as PostgreSQL makes them of the constraints. *)
Definition postgres_db (names : list string) (constraints : list pg_constraint_row)
  : DatabaseClient :=
  let current :=
    {| CURRENT_CATALOG := "db"; pg_constraint := constraints;
       information_schema_tables := [];
       information_schema_referential_constraints := [];
       information_schema_key_column_usage := [];
       fetch_table_description := fun _ _ => None;
       fetch_columns := fun _ _ => [];
       fetch_unique_constraints := fun _ _ => [];
       fetch_reference_constraints := fun _ _ => [] |} in
  {| CURRENT_CATALOG := "db"; pg_constraint := constraints;
     information_schema_tables := map table names;
     information_schema_referential_constraints :=
       flat_map (referential_constraints_of current) constraints;
     information_schema_key_column_usage :=
       flat_map (key_column_usage_of current) constraints;
     fetch_table_description := fun _ _ => None;
     fetch_columns := fun _ _ => [];
     fetch_unique_constraints := fun _ _ => [];
     fetch_reference_constraints := fun _ _ => [] |}.

(** A foreign key [from.to_id -> to.id] under a name of one's choice. *)
Definition named_fkey (name from to : string) : pg_constraint_row :=
  {| connamespace := "public"; conname := name; conrelname := from;
     conkey := [to ++ "_id"]; contype := foreign_key "public" to (to ++ "_pkey") |}.

(** [c] references [p]; [x] and [y] reference each other only.  The foreign
    keys of [c] and of [x] are both named [ref]. *)
Definition name_clash_db : DatabaseClient :=
  postgres_db ["p"; "c"; "x"; "y"]
    [pkey_of "p"; pkey_of "x"; pkey_of "y";
     named_fkey "ref" "c" "p"; named_fkey "ref" "x" "y"; fkey_of "y" "x"].

(** Boolean tests on names, as equations. *)
Ltac bool_to_prop :=
  repeat match goal with
         | H : _ && _ = true |- _ => apply andb_true_iff in H; destruct H
         | H : (_ =? _)%string = true |- _ => apply String.eqb_eq in H
         | H : negb _ = true |- _ => apply negb_true_iff in H
         | H : negb _ = false |- _ => apply negb_false_iff in H
         end.

(** * Properties *)

(** ** Lists and joins *)

Lemma flat_map_nil {A B : Type} (f : A -> list B) l :
  (forall x, In x l -> f x = []) -> flat_map f l = [].
Proof.
  induction l as [|x l IH]; intro H; simpl; [reflexivity|].
  rewrite (H x (or_introl eq_refl)), IH; [reflexivity|].
  intros y Hy. apply H. right. exact Hy.
Qed.

Lemma flat_map_flat_map {A B C : Type} (f : B -> list C) (g : A -> list B) l :
  flat_map f (flat_map g l) = flat_map (fun x => flat_map f (g x)) l.
Proof.
  induction l as [|x l IH]; simpl; [reflexivity|].
  rewrite flat_map_app, IH. reflexivity.
Qed.

Lemma flat_map_ext_In {A B : Type} (f g : A -> list B) l :
  (forall x, In x l -> f x = g x) -> flat_map f l = flat_map g l.
Proof.
  induction l as [|x l IH]; intro H; simpl; [reflexivity|].
  rewrite (H x (or_introl eq_refl)), IH; [reflexivity|].
  intros y Hy. apply H. right. exact Hy.
Qed.

(** Rows that contribute nothing can be filtered out beforehand. *)
Lemma flat_map_filter_skip {A B : Type} (h : A -> list B) (keep : A -> bool) l :
  (forall x, In x l -> keep x = false -> h x = []) ->
  flat_map h (filter keep l) = flat_map h l.
Proof.
  induction l as [|x l IH]; intro H; simpl; [reflexivity|].
  assert (IH' : flat_map h (filter keep l) = flat_map h l)
    by (apply IH; intros y Hy; apply H; right; exact Hy).
  destruct (keep x) eqn:Ek; simpl; rewrite IH'; [reflexivity|].
  rewrite (H x (or_introl eq_refl) Ek). reflexivity.
Qed.

Lemma filter_swap {A : Type} (p q : A -> bool) l :
  filter p (filter q l) = filter q (filter p l).
Proof.
  induction l as [|x l IH]; simpl; [reflexivity|].
  destruct (q x) eqn:Eq, (p x) eqn:Ep; simpl; rewrite ?Eq, ?Ep, IH; reflexivity.
Qed.


Lemma right_join_row_In {A B : Type} (on : A -> B -> bool) l b a b' :
  In (a, b') (right_join_row on l b) ->
  b' = b /\
  match a with
  | None => forall a', In a' l -> on a' b = false
  | Some a' => In a' l /\ on a' b = true
  end.
Proof.
  unfold right_join_row.
  destruct (filter (fun a => on a b) l) as [|m ms] eqn:Ef; intro HIn.
  - destruct HIn as [Heq|[]]. injection Heq as <- <-.
    split; [reflexivity|].
    intros a' Ha'. destruct (on a' b) eqn:Eon; [|reflexivity].
    assert (H : In a' (filter (fun a => on a b) l)) by (apply filter_In; auto).
    rewrite Ef in H. destruct H.
  - apply in_map_iff in HIn. destruct HIn as (a' & Heq & Ha').
    injection Heq as <- <-. split; [reflexivity|].
    rewrite <- Ef in Ha'. apply filter_In in Ha'. exact Ha'.
Qed.

Lemma right_join_In {A B : Type} (on : A -> B -> bool) l r a b :
  In (a, b) (right_join on l r) <-> In b r /\ In (a, b) (right_join_row on l b).
Proof.
  unfold right_join. rewrite in_flat_map. split.
  - intros (b' & Hb' & HIn).
    destruct (right_join_row_In _ _ _ _ _ HIn) as [-> _]. auto.
  - intros [Hb HIn]. exists b. auto.
Qed.

(** ** Dictionaries *)

Section DictProperties.
Context {V : Type}.

Lemma dict_get_set_same (d : dict V) k v : dict_get (dict_set d k v) k = Some v.
Proof.
  induction d as [|[k' v'] d IH]; simpl.
  - rewrite String.eqb_refl. reflexivity.
  - destruct (k' =? k)%string eqn:E; simpl.
    + rewrite String.eqb_refl. reflexivity.
    + rewrite E. exact IH.
Qed.

Lemma dict_get_set_other (d : dict V) k k' v :
  k <> k' -> dict_get (dict_set d k v) k' = dict_get d k'.
Proof.
  intro Hne. induction d as [|[k0 v0] d IH]; simpl.
  - destruct (k =? k')%string eqn:E; [|reflexivity].
    apply String.eqb_eq in E. contradiction.
  - destruct (k0 =? k)%string eqn:E; simpl.
    + apply String.eqb_eq in E. subst k0.
      destruct (k =? k')%string eqn:E'; [|reflexivity].
      apply String.eqb_eq in E'. contradiction.
    + destruct (k0 =? k')%string; [reflexivity|exact IH].
Qed.
End DictProperties.

(** ** The recursion *)

Lemma with_recursive_nil fuel conn db_schema :
  with_recursive fuel conn db_schema [] = Some (Ok []).
Proof. destruct fuel; reflexivity. Qed.




(** ** The order of the output *)

Lemma insert_sorted_Permutation {A : Type} (le : A -> A -> bool) x l :
  Permutation (insert_sorted le x l) (x :: l).
Proof.
  induction l as [|y l IH]; simpl; [reflexivity|].
  destruct (le x y); [reflexivity|].
  rewrite IH. apply perm_swap.
Qed.

Lemma sort_Permutation {A : Type} (le : A -> A -> bool) l :
  Permutation (sort le l) l.
Proof.
  induction l as [|x l IH]; simpl; [reflexivity|].
  rewrite insert_sorted_Permutation. apply perm_skip. exact IH.
Qed.

Lemma insert_sorted_Sorted {A : Type} (le : A -> A -> bool) x l :
  (forall a b, le a b = true \/ le b a = true) ->
  Sorted (fun a b => le a b = true) l ->
  Sorted (fun a b => le a b = true) (insert_sorted le x l).
Proof.
  intros Htotal Hl. induction Hl as [|y l Hl IH Hy]; simpl.
  - repeat constructor.
  - destruct (le x y) eqn:E.
    + repeat constructor; assumption.
    + constructor; [exact IH|].
      destruct Hy as [|z l Hyz]; simpl.
      * constructor. destruct (Htotal x y); congruence.
      * destruct (le x z); constructor; [|exact Hyz].
        destruct (Htotal x y); congruence.
Qed.

Lemma sort_Sorted {A : Type} (le : A -> A -> bool) l :
  (forall a b, le a b = true \/ le b a = true) ->
  Sorted (fun a b => le a b = true) (sort le l).
Proof.
  intro Htotal. induction l as [|x l IH]; simpl; [constructor|].
  apply insert_sorted_Sorted; assumption.
Qed.

Lemma order_by_total g1 g2 : order_by g1 g2 = true \/ order_by g2 g1 = true.
Proof.
  unfold order_by.
  destruct (Z.lt_trichotomy (snd g1) (snd g2)) as [H|[H|H]].
  - left. apply Z.ltb_lt in H. rewrite H. reflexivity.
  - rewrite H, Z.eqb_refl, Z.ltb_irrefl. simpl.
    apply String.leb_total.
  - right. apply Z.ltb_lt in H. rewrite H. reflexivity.
Qed.

(** The groups come back in ascending order of [MIN(depth)], names
    ascending within a depth, every name once. *)
Lemma ordered_groups_Sorted fuel conn db_schema groups :
  ordered_groups fuel conn db_schema = Some (Ok groups) ->
  Sorted (fun g1 g2 => order_by g1 g2 = true) groups /\ NoDup (map fst groups).
Proof.
  unfold ordered_groups.
  destruct (dependencies fuel conn db_schema) as [[rows|e]|]; try discriminate.
  intro H. injection H as <-. split.
  - apply sort_Sorted. exact order_by_total.
  - apply (Permutation_NoDup
             (l := map fst (group_by_child_name rows))).
    + apply Permutation_map. symmetry. apply sort_Permutation.
    + unfold group_by_child_name. rewrite map_map. simpl. rewrite map_id.
      apply NoDup_nodup.
Qed.

(** ** The dependency orderer on the example schemas *)

(** C1.  The ordering property (a referenced table precedes the table that
    references it) fails on the code: in a schema where [orders] references
    [customer] and [invoice] references both, the query returns
    [customer, invoice, orders], with [invoice] before [orders], the table
    it references, and the catalog of [get_catalog_schema] has its tables
    in that order. *)
Theorem invoice_before_orders :
  typed_fetch_column_query 10 invoice_db "public"
    = Some (Ok ["customer"; "invoice"; "orders"]) /\
  option_map (fun r => match r with
                       | Ok catalog => dict_keys (CatalogSchema.tables catalog)
                       | Raise _ => []
                       end)
             (get_catalog_schema keep_literal 10 invoice_db "public")
    = Some ["customer"; "invoice"; "orders"] /\
  foreign_key_edge invoice_db "public" "invoice" "orders" = true /\
  position "invoice" ["customer"; "invoice"; "orders"] = Some 1%nat /\
  position "orders" ["customer"; "invoice"; "orders"] = Some 2%nat /\
  ~ ordering_property invoice_db "public" ["customer"; "invoice"; "orders"].
Proof.
  split; [vm_compute; reflexivity|].
  split; [vm_compute; reflexivity|].
  split; [vm_compute; reflexivity|].
  split; [vm_compute; reflexivity|].
  split; [vm_compute; reflexivity|].
  intro H.
  specialize (H "invoice" "orders" 1%nat 2%nat).
  assert (2 < 1)%nat; [|lia].
  apply H; vm_compute; reflexivity.
Qed.



(** ** Which tables the recursion reaches *)














(** *** A table the recursion reaches is returned *)










(** ** The type mapper *)

Lemma str_in_In x l : str_in x l = true <-> In x l.
Proof.
  unfold str_in. rewrite existsb_exists. split.
  - intros (s & HIn & Heq). apply String.eqb_eq in Heq. subst. exact HIn.
  - intro HIn. exists x. split; [exact HIn|apply String.eqb_refl].
Qed.

(** On a name of the lookup table the mapper returns the type of the
    table, wrapped in [Optional] for a nullable column without default and
    plain otherwise. *)
Lemma _db_type_to_py_type_recognized db_type T is_nullable has_default :
  In (db_type, T) lookup_table ->
  _db_type_to_py_type db_type is_nullable has_default
    = Ok (if is_nullable && negb has_default then Optional T else Plain T, T).
Proof.
  intro H. simpl in H.
  repeat (destruct H as [H|H];
          [injection H as <- <-;
           destruct is_nullable, has_default; vm_compute; reflexivity|]).
  destruct H.
Qed.

(** The mapper either knows a name, and it is in the lookup table, or
    raises. *)
Lemma _db_type_to_py_type_cases db_type :
  recognized db_type \/
  forall is_nullable has_default,
    _db_type_to_py_type db_type is_nullable has_default
      = Raise (UnrecognizedType db_type).
Proof.
  unfold recognized, _db_type_to_py_type.
  repeat match goal with
         | |- context [str_in db_type ?l] =>
             destruct (str_in db_type l) eqn:?H
         end;
    try (right; intros; reflexivity);
    left;
    match goal with
    | H : str_in db_type _ = true |- _ =>
        apply str_in_In in H; simpl in H; simpl; tauto
    end.
Qed.

Lemma unrecognized_raises db_type is_nullable has_default :
  ~ recognized db_type ->
  _db_type_to_py_type db_type is_nullable has_default = Raise (UnrecognizedType db_type).
Proof.
  intro H. destruct (_db_type_to_py_type_cases db_type) as [Hr|Hr]; [contradiction|].
  apply Hr.
Qed.

(** ** The table schema loader *)

Lemma bind_Raise {A B : Type} (c : result A) (k : A -> result B) e :
  c = Raise e -> bind c k = Raise e.
Proof. intros ->. reflexivity. Qed.

Lemma mapM_fails {A B : Type} (f : A -> result B) xs x e :
  In x xs -> f x = Raise e -> exists e', mapM f xs = Raise e'.
Proof.
  induction xs as [|y xs IH]; intros HIn Hf; [destruct HIn|].
  simpl. destruct HIn as [->|HIn].
  - rewrite Hf. eexists. reflexivity.
  - destruct (f y) as [b|e1]; simpl; [|eexists; reflexivity].
    destruct (IH HIn Hf) as (e' & ->). eexists. reflexivity.
Qed.

Section LoaderProperties.
Context {Value : Type}.
Variable parse_literal : py_type -> string -> result Value.
Variable isidentifier : string -> bool.
Variable new_class : string -> list (string * annotation * Field.t Value) -> result unit.

Lemma _add_column_unrecognized column_schemas column :
  ~ recognized (data_type column) ->
  _add_column parse_literal column_schemas column
    = Raise (UnrecognizedType (data_type column)).
Proof.
  intro H. unfold _add_column.
  rewrite (unrecognized_raises _ _ _ H). reflexivity.
Qed.

Lemma _add_columns_app before after column_schemas :
  _add_columns parse_literal (before ++ after) column_schemas
    = (column_schemas' <- _add_columns parse_literal before column_schemas ;;
       _add_columns parse_literal after column_schemas').
Proof.
  revert column_schemas.
  induction before as [|c before IH]; intro column_schemas; simpl; [reflexivity|].
  destruct (_add_column parse_literal column_schemas c); simpl; [apply IH|reflexivity].
Qed.

Lemma _add_columns_fails columns column :
  In column columns ->
  ~ recognized (data_type column) ->
  forall column_schemas,
  exists e, _add_columns parse_literal columns column_schemas = Raise e.
Proof.
  intros HIn Hun.
  induction columns as [|c columns IH]; intro column_schemas; [destruct HIn|].
  simpl. destruct HIn as [->|HIn].
  - rewrite (_add_column_unrecognized _ _ Hun). eexists. reflexivity.
  - destruct (_add_column parse_literal column_schemas c); simpl;
      [apply IH; exact HIn|eexists; reflexivity].
Qed.

(** C3.  For a name of the lookup table the mapper returns, for the four
    combinations of the two flags, [Optional] of the mapped type exactly
    when the column is nullable and has no default, and the plain type
    otherwise.  So the column that [_get_table_schema] stores for a record
    with a default has the plain type, nullable or not, and keeps the
    default. *)
Theorem nullable_without_default_only db_type T :
  In (db_type, T) lookup_table ->
  _db_type_to_py_type db_type true false = Ok (Optional T, T) /\
  _db_type_to_py_type db_type true true = Ok (Plain T, T) /\
  _db_type_to_py_type db_type false false = Ok (Plain T, T) /\
  _db_type_to_py_type db_type false true = Ok (Plain T, T) /\
  (forall column column_schemas column_schemas',
      data_type column = db_type ->
      _add_column parse_literal column_schemas column = Ok column_schemas' ->
      exists stored,
        dict_get column_schemas' (column_name column) = Some stored /\
        ColumnSchema.data_type stored
          = (if truth (is_nullable column) && is_null (column_default column)
             then Optional T else Plain T) /\
        (column_default column <> None ->
         ColumnSchema.data_type stored = Plain T /\
         ColumnSchema.default stored <> None)).
Proof.
  intro H.
  split; [exact (_db_type_to_py_type_recognized _ _ true false H)|].
  split; [exact (_db_type_to_py_type_recognized _ _ true true H)|].
  split; [exact (_db_type_to_py_type_recognized _ _ false false H)|].
  split; [exact (_db_type_to_py_type_recognized _ _ false true H)|].
  intros column column_schemas column_schemas' <- Hadd.
  unfold _add_column in Hadd.
  rewrite (_db_type_to_py_type_recognized _ _ _ _ H) in Hadd. simpl in Hadd.
  rewrite negb_involutive in Hadd.
  destruct (cast_if_not_none parse_literal T (column_default column))
    as [default|e] eqn:Ecast; simpl in Hadd; [|discriminate].
  injection Hadd as <-.
  eexists. split; [apply dict_get_set_same|].
  simpl. split; [reflexivity|].
  intro Hdefault.
  destruct (column_default column) as [literal|]; [|contradiction].
  rewrite andb_false_r. split; [reflexivity|].
  simpl in Ecast.
  destruct (parse_literal T literal); simpl in Ecast; [|discriminate].
  injection Ecast as <-. discriminate.
Qed.

(** C7.  A type name outside the lookup table makes the mapper raise
    [UnrecognizedType], whatever the flags; a table with a column of such
    a type is not returned, [_get_table_schema] raises, and it raises
    that very error when the columns before loaded; and a run whose
    table list has such a table ends with an exception, in
    [get_catalog_schema] and in [main]. *)
Theorem unrecognized_type_is_fatal :
  (forall db_type is_nullable has_default,
      ~ recognized db_type ->
      _db_type_to_py_type db_type is_nullable has_default
        = Raise (UnrecognizedType db_type)) /\
  (forall conn db_schema db_table column,
      In column (fetch_columns conn db_schema db_table) ->
      ~ recognized (data_type column) ->
      exists e, _get_table_schema parse_literal conn db_schema db_table = Raise e) /\
  (forall conn db_schema db_table before column after column_schemas,
      fetch_columns conn db_schema db_table = (before ++ column :: after)%list ->
      ~ recognized (data_type column) ->
      _add_columns parse_literal before [] = Ok column_schemas ->
      _get_table_schema parse_literal conn db_schema db_table
        = Raise (UnrecognizedType (data_type column))) /\
  (forall fuel conn db_schema tables db_table column,
      typed_fetch_column_query fuel conn db_schema = Some (Ok tables) ->
      In db_table tables ->
      In column (fetch_columns conn db_schema db_table) ->
      ~ recognized (data_type column) ->
      exists e,
        get_catalog_schema parse_literal fuel conn db_schema = Some (Raise e) /\
        main parse_literal isidentifier new_class fuel conn db_schema = Some (Raise e)).
Proof.
  assert (Htable : forall conn db_schema db_table column,
             In column (fetch_columns conn db_schema db_table) ->
             ~ recognized (data_type column) ->
             exists e, _get_table_schema parse_literal conn db_schema db_table = Raise e).
  { intros conn db_schema db_table column HIn Hun. unfold _get_table_schema.
    destruct (_add_columns_fails _ _ HIn Hun []) as (e & ->).
    eexists. reflexivity. }
  split; [intros; apply unrecognized_raises; assumption|].
  split; [exact Htable|].
  split.
  - intros conn db_schema db_table before column after column_schemas Hcols Hun Hbefore.
    unfold _get_table_schema. rewrite Hcols, _add_columns_app, Hbefore. simpl.
    rewrite (_add_column_unrecognized _ _ Hun). reflexivity.
  - intros fuel conn db_schema tables db_table column Hq Ht HIn Hun.
    destruct (Htable _ _ _ _ HIn Hun) as (e & He).
    destruct (mapM_fails _ _ _ _ Ht He) as (e' & He').
    exists e'. unfold main, get_catalog_schema. rewrite Hq, He'. split; reflexivity.
Qed.
End LoaderProperties.

Lemma nullable_without_default_only_witness :
  In ("integer", py_int) lookup_table /\
  _db_type_to_py_type "integer" true false = Ok (Optional py_int, py_int) /\
  _db_type_to_py_type "integer" true true = Ok (Plain py_int, py_int) /\
  exists stored,
    dict_get (TableSchema.columns (loaded_columns (fetch_columns mixed_db "public" "t")))
             "count" = Some stored /\
    ColumnSchema.data_type stored = Plain py_int /\
    ColumnSchema.default stored <> None.
Proof.
  assert (H : In ("integer", py_int) lookup_table) by (vm_compute; tauto).
  split; [exact H|].
  destruct (nullable_without_default_only keep_literal "integer" py_int H)
    as (H1 & H2 & _ & _ & Hcolumn).
  split; [exact H1|].
  split; [exact H2|].
  destruct (Hcolumn (a_column "count" "integer" true (Some "0"))
              [] [("count", {| ColumnSchema.name := "count";
                               ColumnSchema.data_type := Plain py_int;
                               ColumnSchema.default := Some "0";
                               ColumnSchema.description := None;
                               ColumnSchema.references := None |})]
              eq_refl eq_refl) as (stored & Hget & _ & Hplain).
  simpl in Hget. injection Hget as <-.
  eexists. split; [vm_compute; reflexivity|].
  simpl. split; [reflexivity|discriminate].
Defined.

Lemma uuid_unrecognized : ~ recognized "uuid".
Proof.
  unfold recognized. simpl. intro H.
  repeat (destruct H as [H|H]; [discriminate H|]). exact H.
Qed.

Lemma unrecognized_type_is_fatal_witness :
  _db_type_to_py_type "uuid" true false = Raise (UnrecognizedType "uuid") /\
  (exists e, _get_table_schema keep_literal uuid_column_db "public" "t" = Raise e) /\
  _get_table_schema keep_literal uuid_column_db "public" "t"
    = Raise (UnrecognizedType "uuid") /\
  (exists e,
      get_catalog_schema keep_literal 10 uuid_column_db "public" = Some (Raise e) /\
      main keep_literal any_name any_class 10 uuid_column_db "public" = Some (Raise e)).
Proof.
  destruct (unrecognized_type_is_fatal keep_literal any_name any_class)
    as (Hmap & Htable & Hfirst & Hrun).
  split; [apply Hmap; exact uuid_unrecognized|].
  split.
  { apply (Htable uuid_column_db "public" "t" (a_column "token" "uuid" false None));
      [simpl; auto|exact uuid_unrecognized]. }
  split.
  { apply (Hfirst uuid_column_db "public" "t"
             [a_column "id" "integer" false None]
             (a_column "token" "uuid" false None) []
             [("id", {| ColumnSchema.name := "id";
                        ColumnSchema.data_type := Plain py_int;
                        ColumnSchema.default := None;
                        ColumnSchema.description := None;
                        ColumnSchema.references := None |})]);
      [reflexivity|exact uuid_unrecognized|vm_compute; reflexivity]. }
  apply (Hrun 10%nat uuid_column_db "public" ["t"] "t"
           (a_column "token" "uuid" false None));
    [vm_compute; reflexivity|simpl; auto|simpl; auto|exact uuid_unrecognized].
Defined.

(** ** The constraint resolver *)


Section ResolverProperties.
Context {Value : Type}.
Variable parse_literal : py_type -> string -> result Value.

(** *** What a pass over the foreign-key rows does *)

Lemma _set_foreign_keys_loop_app before after (table_schema : TableSchema.t Value) :
  _set_foreign_keys_loop (before ++ after) table_schema
    = (table_schema' <- _set_foreign_keys_loop before table_schema ;;
       _set_foreign_keys_loop after table_schema').
Proof.
  revert table_schema.
  induction before as [|c before IH]; intro table_schema; simpl; [reflexivity|].
  destruct (_set_foreign_key table_schema c); simpl; [apply IH|reflexivity].
Qed.

(** The outcomes of the loop body on one row. *)
Lemma _set_foreign_key_cases (table_schema : TableSchema.t Value) constraint :
  (foreign_key_schema constraint <> primary_key_schema constraint /\
   _set_foreign_key table_schema constraint
     = Raise (CrossSchemaReferenceError (foreign_key_schema constraint)
                                        (primary_key_schema constraint))) \/
  (foreign_key_schema constraint = primary_key_schema constraint /\
   dict_get (TableSchema.columns table_schema) (foreign_key_column constraint) = None /\
   _set_foreign_key table_schema constraint
     = Raise (KeyError (foreign_key_column constraint))) \/
  (foreign_key_schema constraint = primary_key_schema constraint /\
   exists column fk,
     dict_get (TableSchema.columns table_schema) (foreign_key_column constraint)
       = Some column /\
     ColumnSchema.references column = Some fk /\
     _set_foreign_key table_schema constraint
       = Raise (DuplicateForeignKeyError (ColumnSchema.name column))) \/
  (foreign_key_schema constraint = primary_key_schema constraint /\
   exists column,
     dict_get (TableSchema.columns table_schema) (foreign_key_column constraint)
       = Some column /\
     ColumnSchema.references column = None /\
     _set_foreign_key table_schema constraint
       = Ok (TableSchema.set_column table_schema (foreign_key_column constraint)
               (ColumnSchema.set_references column
                  (Some {| ForeignKey.name := foreign_key_name constraint;
                           ForeignKey.references :=
                             {| Reference.table := primary_key_table constraint;
                                Reference.column := primary_key_column constraint |} |})))).
Proof.
  unfold _set_foreign_key, dict_getitem.
  destruct (foreign_key_schema constraint =? primary_key_schema constraint)%string eqn:E.
  - apply String.eqb_eq in E. right. simpl.
    destruct (dict_get (TableSchema.columns table_schema) (foreign_key_column constraint))
      as [column|] eqn:Eg; simpl.
    + destruct (ColumnSchema.references column) as [fk|] eqn:Er.
      * right. left. split; [exact E|]. exists column, fk. auto.
      * right. right. split; [exact E|]. exists column. auto.
    + left. auto.
  - apply String.eqb_neq in E. left. simpl. auto.
Qed.

(** A row whose schemas differ stops the pass where it stands, whatever
    the table holds. *)
Lemma _set_foreign_key_cross_schema (table_schema : TableSchema.t Value) constraint :
  foreign_key_schema constraint <> primary_key_schema constraint ->
  _set_foreign_key table_schema constraint
    = Raise (CrossSchemaReferenceError (foreign_key_schema constraint)
                                       (primary_key_schema constraint)).
Proof.
  intro H. destruct (_set_foreign_key_cases table_schema constraint)
    as [[_ E]|[[E _]|[[E _]|[E _]]]]; [exact E|contradiction..].
Qed.

(** A row that went through leaves its column with a foreign key. *)
Lemma _set_foreign_key_marks (table_schema table_schema' : TableSchema.t Value) constraint :
  _set_foreign_key table_schema constraint = Ok table_schema' ->
  has_reference table_schema' (foreign_key_column constraint).
Proof.
  intro H. destruct (_set_foreign_key_cases table_schema constraint)
    as [[_ E]|[(_ & _ & E)|[(_ & c & fk & _ & _ & E)|(_ & c & _ & _ & E)]]];
    rewrite E in H; try discriminate.
  injection H as <-. unfold has_reference. simpl.
  rewrite dict_get_set_same. eexists _, _. split; reflexivity.
Qed.

(** A row that went through takes no foreign key away. *)
Lemma _set_foreign_key_keeps (table_schema table_schema' : TableSchema.t Value)
    constraint key :
  _set_foreign_key table_schema constraint = Ok table_schema' ->
  has_reference table_schema key ->
  has_reference table_schema' key.
Proof.
  intros H (column & fk & Hget & Href).
  destruct (_set_foreign_key_cases table_schema constraint)
    as [[_ E]|[(_ & _ & E)|[(_ & c & fk' & _ & _ & E)|(_ & c & Hc & Hnone & E)]]];
    rewrite E in H; try discriminate.
  injection H as <-.
  destruct (string_dec (foreign_key_column constraint) key) as [Heq|Hne].
  - subst key. congruence.
  - exists column, fk. simpl. rewrite (dict_get_set_other _ _ _ _ Hne). auto.
Qed.

Lemma _set_foreign_keys_loop_keeps constraints key :
  forall table_schema table_schema' : TableSchema.t Value,
    _set_foreign_keys_loop constraints table_schema = Ok table_schema' ->
    has_reference table_schema key ->
    has_reference table_schema' key.
Proof.
  induction constraints as [|c constraints IH]; simpl; intros ts ts' H Href.
  - injection H as <-. exact Href.
  - destruct (_set_foreign_key ts c) as [ts1|e] eqn:E; simpl in H; [|discriminate].
    apply (IH ts1 ts' H). eapply _set_foreign_key_keeps; eauto.
Qed.

(** On a column that has a foreign key the loop body raises: the schema
    check comes first, the duplicate check after it. *)
Lemma _set_foreign_key_on_marked (table_schema : TableSchema.t Value) constraint :
  has_reference table_schema (foreign_key_column constraint) ->
  (foreign_key_schema constraint <> primary_key_schema constraint /\
   _set_foreign_key table_schema constraint
     = Raise (CrossSchemaReferenceError (foreign_key_schema constraint)
                                        (primary_key_schema constraint))) \/
  (foreign_key_schema constraint = primary_key_schema constraint /\
   exists name,
     _set_foreign_key table_schema constraint = Raise (DuplicateForeignKeyError name)).
Proof.
  intros (column & fk & Hget & Href).
  destruct (_set_foreign_key_cases table_schema constraint)
    as [[Hs E]|[(_ & Hn & _)|[(Hs & c & fk' & _ & _ & E)|(_ & c & Hc & Hnone & _)]]].
  - left. auto.
  - congruence.
  - right. split; [exact Hs|]. eexists. exact E.
  - congruence.
Qed.

(** The pass never ends well on rows that name a column twice. *)
Lemma same_column_twice_raises constraints (table_schema : TableSchema.t Value) :
  same_column_twice constraints ->
  exists e, _set_foreign_keys_loop constraints table_schema = Raise e.
Proof.
  intros (before & first & between & second & after & -> & Hcol).
  rewrite _set_foreign_keys_loop_app.
  destruct (_set_foreign_keys_loop before table_schema) as [ts1|e] eqn:E1; simpl;
    [|eexists; reflexivity].
  destruct (_set_foreign_key ts1 first) as [ts2|e] eqn:E2; simpl;
    [|eexists; reflexivity].
  rewrite _set_foreign_keys_loop_app.
  destruct (_set_foreign_keys_loop between ts2) as [ts3|e] eqn:E3; simpl;
    [|eexists; reflexivity].
  assert (Href : has_reference ts3 (foreign_key_column second)).
  { rewrite <- Hcol. eapply _set_foreign_keys_loop_keeps; [exact E3|].
    eapply _set_foreign_key_marks; exact E2. }
  destruct (_set_foreign_key_on_marked ts3 second Href) as [[_ E]|[_ [name E]]];
    rewrite E; simpl; eexists; reflexivity.
Qed.

(** The columns a row can be looked up under stay the same. *)
Lemma _set_foreign_key_keys (table_schema table_schema' : TableSchema.t Value)
    constraint key :
  _set_foreign_key table_schema constraint = Ok table_schema' ->
  dict_get (TableSchema.columns table_schema) key <> None ->
  dict_get (TableSchema.columns table_schema') key <> None.
Proof.
  intros H Hkey.
  destruct (_set_foreign_key_cases table_schema constraint)
    as [[_ E]|[(_ & _ & E)|[(_ & c & fk' & _ & _ & E)|(_ & c & Hc & Hnone & E)]]];
    rewrite E in H; try discriminate.
  injection H as <-. simpl.
  destruct (string_dec (foreign_key_column constraint) key) as [Heq|Hne].
  - subst key. rewrite dict_get_set_same. discriminate.
  - rewrite (dict_get_set_other _ _ _ _ Hne). exact Hkey.
Qed.

(** Rows that stay within the schema and name columns of the table can
    only fail the duplicate check. *)
Lemma _set_foreign_keys_loop_duplicate_only constraints :
  forall (table_schema : TableSchema.t Value) e,
    (forall c, In c constraints ->
               foreign_key_schema c = primary_key_schema c /\
               dict_get (TableSchema.columns table_schema) (foreign_key_column c) <> None) ->
    _set_foreign_keys_loop constraints table_schema = Raise e ->
    exists name, e = DuplicateForeignKeyError name.
Proof.
  induction constraints as [|c constraints IH]; simpl; intros ts e Hall H;
    [discriminate|].
  destruct (Hall c (or_introl eq_refl)) as [Hs Hk].
  destruct (_set_foreign_key_cases ts c)
    as [[Hd _]|[(_ & Hn & _)|[(_ & col & fk & _ & _ & E)|(_ & col & _ & _ & E)]]].
  - contradiction.
  - contradiction.
  - rewrite E in H. simpl in H. injection H as <-. eexists. reflexivity.
  - pose proof E as Hstep. rewrite E in H. simpl in H.
    refine (IH _ e _ H).
    intros c' Hc'. destruct (Hall c' (or_intror Hc')) as [Hs' Hk'].
    split; [exact Hs'|].
    exact (_set_foreign_key_keys _ _ _ _ Hstep Hk').
Qed.
End ResolverProperties.

Section ForeignKeyPass.
Context {Value : Type}.
Variable parse_literal : py_type -> string -> result Value.

(** C6, amended.  When the foreign-key rows of a table name a column
    twice, the pass raises and [_get_table_schema] returns no table, so
    neither foreign key is kept.  The exception is
    [DuplicateForeignKeyError] when every row up to the second of the two
    stays within one schema and names a column of the table: a row's
    schema check comes before its duplicate check. *)
Theorem duplicate_foreign_key_rejected conn db_schema
    (table_schema : TableSchema.t Value) before first between second after :
  fetch_reference_constraints conn db_schema (TableSchema.name table_schema)
    = (before ++ first :: between ++ second :: after)%list ->
  foreign_key_column first = foreign_key_column second ->
  (exists e, _set_foreign_keys conn db_schema table_schema = Raise e) /\
  (exists e, _get_table_schema parse_literal conn db_schema
               (TableSchema.name table_schema) = Raise e) /\
  ((forall c, In c (before ++ first :: between ++ [second]) ->
              foreign_key_schema c = primary_key_schema c /\
              dict_get (TableSchema.columns table_schema) (foreign_key_column c)
                <> None) ->
   exists name,
     _set_foreign_keys conn db_schema table_schema
       = Raise (DuplicateForeignKeyError name)).
Proof.
  intros Hrows Hcol.
  assert (Htwice : forall rest,
             same_column_twice (before ++ first :: between ++ second :: rest)).
  { intro rest. exists before, first, between, second, rest. auto. }
  split; [|split].
  - unfold _set_foreign_keys. rewrite Hrows.
    apply same_column_twice_raises. apply Htwice.
  - unfold _get_table_schema.
    destruct (_add_columns parse_literal
                (fetch_columns conn db_schema (TableSchema.name table_schema)) [])
      as [column_schemas|e]; simpl; [|eexists; reflexivity].
    unfold _set_foreign_keys. simpl. rewrite Hrows.
    match goal with
    | |- context [_set_foreign_keys_loop ?rows ?ts] =>
        destruct (same_column_twice_raises rows ts (Htwice after)) as (e & ->)
    end.
    eexists. reflexivity.
  - intro Hall. unfold _set_foreign_keys. rewrite Hrows.
    replace (before ++ first :: between ++ second :: after)%list
      with ((before ++ first :: between ++ [second]) ++ after)%list
      by (rewrite <- !app_assoc; simpl; rewrite <- app_assoc; reflexivity).
    rewrite _set_foreign_keys_loop_app.
    destruct (same_column_twice_raises (before ++ first :: between ++ [second])
                table_schema (Htwice [])) as (e & He).
    destruct (_set_foreign_keys_loop_duplicate_only _ _ _ Hall He) as (name & ->).
    rewrite He. exists name. reflexivity.
Qed.

(** C9, amended.  A foreign-key row whose two schemas differ is never
    attached: the loop body raises [CrossSchemaReferenceError] on it
    whatever the table holds, so the pass raises in any case, that error
    when the rows before it went through and the error of an earlier row
    otherwise. *)
Theorem cross_schema_reference_rejected conn db_schema
    (table_schema : TableSchema.t Value) before constraint after :
  fetch_reference_constraints conn db_schema (TableSchema.name table_schema)
    = (before ++ constraint :: after)%list ->
  foreign_key_schema constraint <> primary_key_schema constraint ->
  (forall table_schema' : TableSchema.t Value,
      _set_foreign_key table_schema' constraint
        = Raise (CrossSchemaReferenceError (foreign_key_schema constraint)
                                           (primary_key_schema constraint))) /\
  (exists e, _set_foreign_keys conn db_schema table_schema = Raise e) /\
  (forall table_schema',
      _set_foreign_keys_loop before table_schema = Ok table_schema' ->
      _set_foreign_keys conn db_schema table_schema
        = Raise (CrossSchemaReferenceError (foreign_key_schema constraint)
                                           (primary_key_schema constraint))) /\
  (forall e,
      _set_foreign_keys_loop before table_schema = Raise e ->
      _set_foreign_keys conn db_schema table_schema = Raise e).
Proof.
  intros Hrows Hdiff.
  split; [intro ts'; apply _set_foreign_key_cross_schema; exact Hdiff|].
  unfold _set_foreign_keys. rewrite Hrows, _set_foreign_keys_loop_app.
  split; [|split].
  - destruct (_set_foreign_keys_loop before table_schema) as [ts1|e]; simpl;
      [|eexists; reflexivity].
    rewrite (_set_foreign_key_cross_schema ts1 _ Hdiff). eexists. reflexivity.
  - intros ts1 ->. simpl.
    rewrite (_set_foreign_key_cross_schema ts1 _ Hdiff). reflexivity.
  - intros e ->. reflexivity.
Qed.
End ForeignKeyPass.

(** C6, as stated.  Column [x] has two foreign keys, the second into
    another schema: the pass raises [CrossSchemaReferenceError] on the
    second row, not [DuplicateForeignKeyError]. *)
Lemma second_key_into_other_schema :
  same_column_twice (fetch_reference_constraints two_keys_one_foreign_db "public" "t") /\
  _set_foreign_keys two_keys_one_foreign_db "public"
      (loaded_columns (fetch_columns two_keys_one_foreign_db "public" "t"))
    = Raise (CrossSchemaReferenceError "public" "other") /\
  _get_table_schema keep_literal two_keys_one_foreign_db "public" "t"
    = Raise (CrossSchemaReferenceError "public" "other").
Proof.
  split.
  - exists [], (a_reference "x" "public" "p"), [], (a_reference "x" "other" "q"), [].
    split; reflexivity.
  - split; vm_compute; reflexivity.
Qed.

Lemma duplicate_foreign_key_rejected_witness :
  (exists e, _set_foreign_keys two_keys_db "public"
               (loaded_columns (fetch_columns two_keys_db "public" "t")) = Raise e) /\
  (exists e, _get_table_schema keep_literal two_keys_db "public" "t" = Raise e) /\
  (exists name,
      _set_foreign_keys two_keys_db "public"
          (loaded_columns (fetch_columns two_keys_db "public" "t"))
        = Raise (DuplicateForeignKeyError name)).
Proof.
  destruct (duplicate_foreign_key_rejected keep_literal two_keys_db "public"
              (loaded_columns (fetch_columns two_keys_db "public" "t"))
              [] (a_reference "x" "public" "p") [] (a_reference "x" "public" "q") []
              eq_refl eq_refl) as (Hpass & Htable & Hkind).
  split; [exact Hpass|].
  split; [exact Htable|].
  apply Hkind.
  intros c Hc. simpl in Hc.
  destruct Hc as [<-|[<-|[]]]; split; try reflexivity; vm_compute; discriminate.
Defined.

(** C9, as stated.  Column [y] has a foreign key into another schema, but
    the rows before it name column [x] twice: the pass raises
    [DuplicateForeignKeyError] on the second row and never comes to the
    row of [y]. *)
Lemma duplicate_before_cross_schema :
  In (a_reference "y" "other" "r")
     (fetch_reference_constraints two_keys_then_foreign_db "public" "t") /\
  foreign_key_schema (a_reference "y" "other" "r")
    <> primary_key_schema (a_reference "y" "other" "r") /\
  _set_foreign_keys two_keys_then_foreign_db "public"
      (loaded_columns (fetch_columns two_keys_then_foreign_db "public" "t"))
    = Raise (DuplicateForeignKeyError "x") /\
  _get_table_schema keep_literal two_keys_then_foreign_db "public" "t"
    = Raise (DuplicateForeignKeyError "x").
Proof.
  split; [simpl; tauto|].
  split; [discriminate|].
  split; vm_compute; reflexivity.
Qed.

Lemma cross_schema_reference_rejected_witness :
  _set_foreign_keys foreign_key_db "public"
      (loaded_columns (fetch_columns foreign_key_db "public" "t"))
    = Raise (CrossSchemaReferenceError "public" "other").
Proof.
  destruct (cross_schema_reference_rejected foreign_key_db "public"
              (loaded_columns (fetch_columns foreign_key_db "public" "t"))
              [a_reference "x" "public" "p"] (a_reference "y" "other" "r") []
              eq_refl) as (_ & _ & Hfirst & _).
  - discriminate.
  - eapply Hfirst. vm_compute. reflexivity.
Defined.

(** ** The field order of a generated dataclass *)

Lemma insert_by_key_partition {A : Type} (key : A -> bool) x fs ts :
  (forall y, In y fs -> key y = false) ->
  (forall y, In y ts -> key y = true) ->
  insert_by_key key x (fs ++ ts)
    = if key x then (fs ++ x :: ts)%list else (x :: fs ++ ts)%list.
Proof.
  intros Hfs Hts. induction fs as [|y fs IH]; simpl.
  - destruct ts as [|y ts]; simpl.
    + destruct (key x); reflexivity.
    + rewrite (Hts y (or_introl eq_refl)). simpl.
      rewrite andb_false_r. destruct (key x); reflexivity.
  - rewrite (Hfs y (or_introl eq_refl)). simpl. rewrite andb_true_r.
    rewrite IH by (intros z Hz; apply Hfs; right; exact Hz).
    destruct (key x); reflexivity.
Qed.

(** Sorting on a boolean key is a stable partition: the elements with key
    [False] in their order, then those with key [True] in theirs. *)
Lemma sort_by_key_partition {A : Type} (key : A -> bool) l :
  sort_by_key key l = (filter (fun x => negb (key x)) l ++ filter key l)%list.
Proof.
  induction l as [|x l IH]; [reflexivity|].
  change (sort_by_key key (x :: l)) with (insert_by_key key x (sort_by_key key l)).
  rewrite IH, insert_by_key_partition.
  - simpl. destruct (key x); reflexivity.
  - intros y Hy. apply filter_In in Hy. destruct Hy as [_ Hy].
    apply negb_true_iff. exact Hy.
  - intros y Hy. apply filter_In in Hy. tauto.
Qed.

Section DataclassProperties.
Context {Value : Type}.
Variable isidentifier : string -> bool.
Variable new_class : string -> list (string * annotation * Field.t Value) -> result unit.

(** What the sort is for: on a partitioned list the generated [__init__]
    never meets a field without default after one with a default. *)
Lemma check_defaults_last_partition (fs ts : list (string * annotation * Field.t Value)) :
  (forall f, In f fs -> has_default f = false) ->
  (forall f, In f ts -> has_default f = true) ->
  check_defaults_last false (fs ++ ts) = Ok tt.
Proof.
  intros Hfs Hts.
  assert (Hdefaults : forall b, check_defaults_last b ts = Ok tt).
  { clear Hfs. induction ts as [|f ts IH]; intro b; simpl; [reflexivity|].
    rewrite (Hts f (or_introl eq_refl)).
    apply IH. intros g Hg. apply Hts. right. exact Hg. }
  induction fs as [|f fs IH]; simpl; [apply Hdefaults|].
  rewrite (Hfs f (or_introl eq_refl)).
  apply IH. intros g Hg. apply Hfs. right. exact Hg.
Qed.

Lemma has_default_column_to_field (column : ColumnSchema.t Value) :
  has_default (column_to_field column) = true <->
  ColumnSchema.default column <> None \/
  is_optional_type (ColumnSchema.data_type column) = true.
Proof.
  unfold has_default, column_to_field. simpl.
  destruct (ColumnSchema.default column) as [v|]; simpl.
  - split; [left; discriminate|reflexivity].
  - destruct (is_optional_type (ColumnSchema.data_type column)); simpl.
    + split; [right; reflexivity|reflexivity].
    + split; [discriminate|intros [H|H]; [contradiction|discriminate]].
Qed.

(** C10.  The fields of the generated dataclass are not in column order
    but a stable partition of it: first the fields without a default, in
    column order, then the fields with one, in column order; a field has
    a default when its column has one or, else, when its type is
    [Optional], the default then being [None].  This is the list handed
    to [make_dataclass], which accepts its order of defaults, and the
    field list of the class when one is made. *)
Theorem defaults_follow_non_defaults (table : TableSchema.t Value) :
  let fields := map column_to_field (dict_values (TableSchema.columns table)) in
  sorted_fields table
    = (filter (fun f => negb (has_default f)) fields ++ filter has_default fields)%list /\
  (forall column : ColumnSchema.t Value,
      has_default (column_to_field column) = true <->
      ColumnSchema.default column <> None \/
      is_optional_type (ColumnSchema.data_type column) = true) /\
  check_defaults_last false (sorted_fields table) = Ok tt /\
  (forall typ,
      table_to_dataclass isidentifier new_class table = Ok typ ->
      DataClass.fields typ
        = (filter (fun f => negb (has_default f)) fields ++ filter has_default fields)%list).
Proof.
  intro fields.
  assert (Hsorted : sorted_fields table
            = (filter (fun f => negb (has_default f)) fields
                 ++ filter has_default fields)%list)
    by apply sort_by_key_partition.
  split; [exact Hsorted|].
  split; [exact has_default_column_to_field|].
  split.
  - rewrite Hsorted. apply check_defaults_last_partition.
    + intros f Hf. apply filter_In in Hf. destruct Hf as [_ Hf].
      apply negb_true_iff. exact Hf.
    + intros f Hf. apply filter_In in Hf. tauto.
  - intros typ H. rewrite <- Hsorted.
    unfold table_to_dataclass, make_dataclass in H.
    destruct (check_field_names isidentifier [] (sorted_fields table));
      simpl in H; [|discriminate].
    destruct (new_class _ (sorted_fields table)); simpl in H; [|discriminate].
    destruct (check_defaults_last false (sorted_fields table));
      simpl in H; [|discriminate].
    injection H as <-. reflexivity.
Qed.
End DataclassProperties.

Lemma defaults_follow_non_defaults_witness :
  exists typ,
    table_to_dataclass any_name any_class (loaded_columns (fetch_columns mixed_db "public" "t"))
      = Ok typ /\
    map (fun f => fst (fst f)) (DataClass.fields typ)
      = ["id"; "name"; "day"; "note"; "count"].
Proof.
  destruct (table_to_dataclass any_name any_class
              (loaded_columns (fetch_columns mixed_db "public" "t"))) as [typ|e] eqn:E;
    [|vm_compute in E; discriminate E].
  exists typ. split; [reflexivity|].
  destruct (defaults_follow_non_defaults any_name any_class
              (loaded_columns (fetch_columns mixed_db "public" "t")))
    as (_ & _ & _ & Hfields).
  rewrite (Hfields typ E). vm_compute. reflexivity.
Defined.

(** ** The empty schema *)

(** Without a table in the target schema the non-recursive term is empty. *)
Lemma initial_term_no_tables conn db_schema :
  (forall tab, In tab (information_schema_tables conn) ->
               in_target_schema conn db_schema tab = false) ->
  initial_term conn db_schema = [].
Proof.
  intro H. unfold initial_term. apply flat_map_nil.
  intros [j tab] HIn. apply right_join_In in HIn. destruct HIn as [HIn _].
  unfold initial_select. rewrite (H tab HIn). reflexivity.
Qed.

Lemma typed_fetch_column_query_no_tables fuel conn db_schema :
  (forall tab, In tab (information_schema_tables conn) ->
               in_target_schema conn db_schema tab = false) ->
  typed_fetch_column_query fuel conn db_schema = Some (Ok []).
Proof.
  intro H. unfold typed_fetch_column_query, ordered_groups, dependencies.
  rewrite (initial_term_no_tables _ _ H), with_recursive_nil. reflexivity.
Qed.

Section EmptySchema.
Context {Value : Type}.
Variable parse_literal : py_type -> string -> result Value.
Variable isidentifier : string -> bool.
Variable new_class : string -> list (string * annotation * Field.t Value) -> result unit.

Lemma get_catalog_schema_no_tables fuel conn db_schema :
  (forall tab, In tab (information_schema_tables conn) ->
               in_target_schema conn db_schema tab = false) ->
  get_catalog_schema parse_literal fuel conn db_schema
    = Some (Ok {| CatalogSchema.name := db_schema; CatalogSchema.tables := [] |}).
Proof.
  intro H. unfold get_catalog_schema.
  rewrite (typed_fetch_column_query_no_tables _ _ _ H). reflexivity.
Qed.

(** C4, amended.  For a schema without tables [get_catalog_schema]
    returns a catalog, of that name and with no tables, which is false as
    a truth value; it is its caller [main] that raises
    [EmptySchemaError], on that catalog as on any catalog without
    tables. *)
Theorem empty_schema_rejected_by_main fuel conn db_schema :
  (forall tab, In tab (information_schema_tables conn) ->
               in_target_schema conn db_schema tab = false) ->
  get_catalog_schema parse_literal fuel conn db_schema
    = Some (Ok {| CatalogSchema.name := db_schema; CatalogSchema.tables := [] |}) /\
  CatalogSchema.__bool__
    {| CatalogSchema.name := db_schema;
       CatalogSchema.tables := ([] : dict (TableSchema.t Value)) |} = false /\
  main parse_literal isidentifier new_class fuel conn db_schema
    = Some (Raise (EmptySchemaError db_schema)) /\
  (forall fuel' conn' db_schema' catalog,
      get_catalog_schema parse_literal fuel' conn' db_schema' = Some (Ok catalog) ->
      CatalogSchema.tables catalog = [] ->
      main parse_literal isidentifier new_class fuel' conn' db_schema'
        = Some (Raise (EmptySchemaError db_schema'))).
Proof.
  intro H. split; [apply get_catalog_schema_no_tables; exact H|].
  split; [reflexivity|].
  split.
  - unfold main. rewrite (get_catalog_schema_no_tables _ _ _ H). reflexivity.
  - intros fuel' conn' db_schema' catalog Hcatalog Hempty.
    unfold main. rewrite Hcatalog. simpl.
    unfold CatalogSchema.__bool__. rewrite Hempty. reflexivity.
Qed.
End EmptySchema.

(** C4, as stated.  On a schema without tables [get_catalog_schema] raises
    nothing: it returns the empty catalog. *)
Lemma empty_catalog_is_returned :
  get_catalog_schema keep_literal 0 empty_db "public"
    = Some (Ok {| CatalogSchema.name := "public"; CatalogSchema.tables := [] |}) /\
  ~ exists fuel e,
      get_catalog_schema keep_literal fuel empty_db "public" = Some (Raise e).
Proof.
  split; [vm_compute; reflexivity|].
  intros (fuel & e & H).
  rewrite get_catalog_schema_no_tables in H; [discriminate H|].
  intros tab [].
Qed.

Lemma empty_schema_rejected_by_main_witness :
  get_catalog_schema keep_literal 10 empty_db "public"
    = Some (Ok {| CatalogSchema.name := "public"; CatalogSchema.tables := [] |}) /\
  main keep_literal any_name any_class 10 empty_db "public"
    = Some (Raise (EmptySchemaError "public")).
Proof.
  destruct (empty_schema_rejected_by_main keep_literal any_name any_class 10 empty_db "public")
    as (Hcatalog & _ & Hmain & _).
  - intros tab [].
  - split; assumption.
Defined.

(** * Further properties *)

(** ** The rows of the dependency query *)











(** ** Depths and the order of the output *)




Lemma typed_fetch_column_query_groups fuel conn db_schema out :
  typed_fetch_column_query fuel conn db_schema = Some (Ok out) ->
  exists groups,
    ordered_groups fuel conn db_schema = Some (Ok groups) /\ out = map fst groups.
Proof.
  unfold typed_fetch_column_query.
  destruct (ordered_groups fuel conn db_schema) as [[groups|e]|]; try discriminate.
  intro H. injection H as <-. exists groups. auto.
Qed.





(** ** The join of the views and the foreign keys *)




Section JoinAndForeignKeys.
Variable conn : DatabaseClient.
Variable db_schema : string.
Hypothesis Hcatalog : postgres_catalog conn.





(** With constraint names that are unique in the target schema the join
    has no other rows. *)
Hypothesis Hunique : unique_constraint_names conn db_schema = true.







End JoinAndForeignKeys.

Lemma postgres_catalog_by_rows conn :
  information_schema_key_column_usage conn
    = flat_map (key_column_usage_of conn) (pg_constraint conn) ->
  information_schema_referential_constraints conn
    = flat_map (referential_constraints_of conn) (pg_constraint conn) ->
  valid_constraints conn = true ->
  postgres_catalog conn.
Proof.
  intros Hkcu Href Hvalid. split; [|exact Hvalid].
  split; intro row; [rewrite Hkcu|rewrite Href]; tauto.
Qed.








(** ** Cycles and the end of the recursion *)



















Lemma foreign_key_edge_true conn db_schema a b :
  foreign_key_edge conn db_schema a b = true ->
  exists c n, In c (pg_constraint conn) /\
              conrelname c = a /\ contype c = foreign_key db_schema b n.
Proof.
  unfold foreign_key_edge. rewrite existsb_exists. intros (c & Hc & H).
  apply andb_true_iff in H. destruct H as [Hon Hto].
  unfold foreign_key_on in Hon. unfold foreign_key_to in Hto.
  destruct (contype c) as [| |s t n] eqn:Etype; try discriminate Hto.
  bool_to_prop. exists c, n. subst. auto.
Qed.




(** ** Tables without a chain of foreign keys to a table that has none *)







(** Where two tables have constraints of the same name the join takes the
    one for the other.  In [name_clash_db] the tables [x] and [y] reference
    each other only, and [c] references [p]; the foreign keys of [c] and
    of [x] are both named [ref].  No chain of foreign keys leads from [x]
    to a table without foreign keys, and [x] does not reference [p]; the
    join has a row from [x] to [p] all the same, and the recursion gives
    [x] the depth 2. *)
Lemma name_clash_db_edges a b :
  foreign_key_edge name_clash_db "public" a b = true ->
  (a = "c" /\ b = "p") \/ (a = "x" /\ b = "y") \/ (a = "y" /\ b = "x").
Proof.
  intro H. apply foreign_key_edge_true in H.
  destruct H as (c & n & Hc & <- & Htype).
  simpl in Hc.
  repeat (destruct Hc as [<-|Hc];
          [try discriminate Htype; injection Htype as <- _; simpl; auto|]).
  destruct Hc.
Qed.

Lemma name_clash_joins_unrelated_tables :
  postgres_catalog name_clash_db /\
  unique_constraint_names name_clash_db "public" = false /\
  ~ reaches_root name_clash_db "public" "x" /\
  foreign_key_edge name_clash_db "public" "x" "p" = false /\
  fkey_pkey_joined name_clash_db "public" "x" "p" = true /\
  option_map (fun r => match r with
                       | Ok dep => map (fun d => (child_name d, depth d)) dep
                       | Raise _ => []
                       end)
             (Some (working_table 1 name_clash_db "public"))
    = Some [("c", 2); ("x", 2)].
Proof.
  split; [apply postgres_catalog_by_rows; vm_compute; reflexivity|].
  split; [vm_compute; reflexivity|].
  split; [|split; [vm_compute; reflexivity|split; vm_compute; reflexivity]].
  assert (H : forall t, reaches_root name_clash_db "public" t -> t = "p" \/ t = "c").
  { induction 1 as [t Ht Hfk|a b Ha Hedge _ IH].
    - unfold is_table in Ht. apply existsb_exists in Ht.
      destruct Ht as (tab & HIn & Ht). bool_to_prop. subst t.
      simpl in HIn.
      destruct HIn as [<-|[<-|[<-|[<-|[]]]]]; simpl; auto;
        vm_compute in Hfk; discriminate Hfk.
    - apply name_clash_db_edges in Hedge.
      destruct Hedge as [[-> ->]|[[-> ->]|[-> ->]]]; [|destruct IH; discriminate..].
      right. reflexivity. }
  intro Hx. destruct (H _ Hx); discriminate.
Qed.

(** ** The foreign-key pass, row by row *)

Section DictKeys.
Context {V : Type}.

Lemma dict_keys_set_present (d : dict V) k v :
  dict_get d k <> None -> dict_keys (dict_set d k v) = dict_keys d.
Proof.
  unfold dict_keys. induction d as [|[k' v'] d IH]; simpl; intro H.
  - contradiction.
  - destruct (k' =? k)%string eqn:E; simpl.
    + apply String.eqb_eq in E. subst. reflexivity.
    + rewrite IH; [reflexivity|exact H].
Qed.

Lemma dict_set_fresh (d : dict V) k v :
  ~ In k (dict_keys d) -> dict_set d k v = (d ++ [(k, v)])%list.
Proof.
  unfold dict_keys. induction d as [|[k' v'] d IH]; simpl; intro H; [reflexivity|].
  destruct (k' =? k)%string eqn:E.
  - apply String.eqb_eq in E. tauto.
  - rewrite IH; [reflexivity|tauto].
Qed.


Lemma dict_In_get (d : dict V) k v :
  NoDup (dict_keys d) -> In (k, v) d -> dict_get d k = Some v.
Proof.
  unfold dict_keys. induction d as [|[k' v'] d IH]; simpl; intros Hnd HIn;
    [destruct HIn|].
  inversion Hnd as [|? ? Hk Hd]; subst.
  destruct HIn as [Heq|HIn].
  - injection Heq as -> ->. rewrite String.eqb_refl. reflexivity.
  - destruct (k' =? k)%string eqn:E; [|auto].
    apply String.eqb_eq in E. subst. exfalso. apply Hk.
    apply in_map_iff. exists (k, v). auto.
Qed.

(** [dict(pairs)] of pairs with distinct keys is the list of the pairs. *)
Lemma dict_of_NoDup (pairs : list (string * V)) :
  NoDup (map fst pairs) -> dict_of pairs = pairs.
Proof.
  unfold dict_of.
  assert (H : forall acc,
             NoDup (map fst (acc ++ pairs)) ->
             fold_left (fun d kv => dict_set d (fst kv) (snd kv)) pairs acc
               = (acc ++ pairs)%list).
  { induction pairs as [|[k v] pairs IH]; intros acc Hnd; simpl.
    - rewrite app_nil_r. reflexivity.
    - rewrite dict_set_fresh.
      + rewrite IH; rewrite <- app_assoc; [reflexivity|exact Hnd].
      + rewrite map_app in Hnd. simpl in Hnd.
        apply NoDup_remove_2 in Hnd. intro HIn. apply Hnd.
        apply in_or_app. left. exact HIn. }
  intro Hnd. apply (H []). exact Hnd.
Qed.
End DictKeys.

Section ForeignKeyRows.
Context {Value : Type}.

Lemma _set_foreign_key_Ok (table_schema table_schema' : TableSchema.t Value) constraint :
  _set_foreign_key table_schema constraint = Ok table_schema' <->
  exists column,
    foreign_key_schema constraint = primary_key_schema constraint /\
    dict_get (TableSchema.columns table_schema) (foreign_key_column constraint)
      = Some column /\
    ColumnSchema.references column = None /\
    table_schema' = TableSchema.set_column table_schema (foreign_key_column constraint)
                      (ColumnSchema.set_references column
                         (Some (foreign_key_of constraint))).
Proof.
  destruct (_set_foreign_key_cases table_schema constraint)
    as [[Hd E]|[(Hs & Hn & E)|[(Hs & c & fk & Hc & Hr & E)|(Hs & c & Hc & Hr & E)]]];
    rewrite E; split.
  - discriminate.
  - intros (c & Hs & _). contradiction.
  - discriminate.
  - intros (c & _ & Hc & _). congruence.
  - discriminate.
  - intros (c' & _ & Hc' & Hr' & _). congruence.
  - intro H. injection H as <-. exists c. auto.
  - intros (c' & _ & Hc' & _ & ->).
    assert (c' = c) by congruence. subst. reflexivity.
Qed.

(** Rows that went through name distinct columns. *)
Lemma _set_foreign_keys_loop_NoDup constraints :
  forall table_schema table_schema' : TableSchema.t Value,
    _set_foreign_keys_loop constraints table_schema = Ok table_schema' ->
    NoDup (map foreign_key_column constraints).
Proof.
  induction constraints as [|c constraints IH]; intros ts ts' H; [constructor|].
  simpl. constructor.
  - intro HIn. apply in_map_iff in HIn. destruct HIn as (c' & Heq & HIn).
    destruct (in_split _ _ HIn) as (between & after & ->).
    destruct (same_column_twice_raises (c :: between ++ c' :: after) ts) as (e & He).
    + exists [], c, between, c', after. split; [reflexivity|]. symmetry. exact Heq.
    + congruence.
  - simpl in H.
    destruct (_set_foreign_key ts c) as [ts1|e]; simpl in H; [|discriminate].
    exact (IH _ _ H).
Qed.

(** A pass that went through kept the name, the description and the
    primary key of the table. *)
Lemma _set_foreign_keys_loop_header constraints :
  forall table_schema table_schema' : TableSchema.t Value,
    _set_foreign_keys_loop constraints table_schema = Ok table_schema' ->
    TableSchema.name table_schema' = TableSchema.name table_schema /\
    TableSchema.description table_schema' = TableSchema.description table_schema /\
    TableSchema.primary_key table_schema' = TableSchema.primary_key table_schema.
Proof.
  induction constraints as [|c constraints IH]; intros ts ts' H; simpl in H.
  - injection H as <-. auto.
  - destruct (_set_foreign_key ts c) as [ts1|e] eqn:E; simpl in H; [|discriminate].
    apply _set_foreign_key_Ok in E. destruct E as (column & _ & _ & _ & ->).
    exact (IH _ _ H).
Qed.

(** X7.  The foreign-key pass goes through exactly when every row stays
    within one schema and names a column of the table that has no foreign
    key yet, and no two rows name the same column. *)
Theorem foreign_key_pass_succeeds_iff constraints :
  forall table_schema : TableSchema.t Value,
    (exists table_schema',
        _set_foreign_keys_loop constraints table_schema = Ok table_schema') <->
    Forall (attachable table_schema) constraints /\
    NoDup (map foreign_key_column constraints).
Proof.
  induction constraints as [|c constraints IH]; intro ts; simpl.
  - split; [intros _; split; constructor|intros _; eexists; reflexivity].
  - split.
    + intros (ts' & H).
      destruct (_set_foreign_key ts c) as [ts1|e] eqn:E; simpl in H; [|discriminate].
      apply _set_foreign_key_Ok in E.
      destruct E as (column & Hs & Hc & Hr & ->).
      destruct (proj1 (IH _) (ex_intro _ ts' H)) as [Hall Hnd].
      assert (Hother : forall c', In c' constraints ->
                                  foreign_key_column c <> foreign_key_column c').
      { intros c' HIn Heq. rewrite Forall_forall in Hall.
        destruct (Hall c' HIn) as (_ & column' & Hc' & Hr').
        simpl in Hc'. rewrite <- Heq, dict_get_set_same in Hc'.
        injection Hc' as <-. discriminate Hr'. }
      split.
      * constructor; [split; [exact Hs|]; exists column; auto|].
        rewrite Forall_forall in *. intros c' HIn.
        destruct (Hall c' HIn) as (Hs' & column' & Hc' & Hr').
        split; [exact Hs'|]. exists column'. split; [|exact Hr'].
        simpl in Hc'. rewrite dict_get_set_other in Hc'; [exact Hc'|].
        apply Hother. exact HIn.
      * constructor; [|exact Hnd].
        intro HIn. apply in_map_iff in HIn. destruct HIn as (c' & Heq & HIn).
        apply (Hother c' HIn). symmetry. exact Heq.
    + intros [Hall Hnd].
      inversion Hall as [|? ? (Hs & column & Hc & Hr) Hrest]; subst.
      inversion Hnd as [|? ? Hfresh Hnd']; subst.
      assert (E : _set_foreign_key ts c
                  = Ok (TableSchema.set_column ts (foreign_key_column c)
                          (ColumnSchema.set_references column
                             (Some (foreign_key_of c)))))
        by (apply _set_foreign_key_Ok; exists column; auto).
      rewrite E. simpl. apply IH. split; [|exact Hnd'].
      rewrite Forall_forall in *. intros c' HIn.
      destruct (Hrest c' HIn) as (Hs' & column' & Hc' & Hr').
      split; [exact Hs'|]. exists column'. split; [|exact Hr'].
      simpl. rewrite dict_get_set_other; [exact Hc'|].
      intro Heq. apply Hfresh. apply in_map_iff. exists c'. auto.
Qed.

(** X8.  A foreign-key pass that goes through keeps the table's name,
    description, primary key and the order of its columns; every column
    keeps its name, type, default and description; the column that a row
    names gets the foreign key of that row, and a column that no row names
    keeps what it had. *)
Theorem foreign_key_pass_only_attaches constraints :
  forall table_schema table_schema' : TableSchema.t Value,
    _set_foreign_keys_loop constraints table_schema = Ok table_schema' ->
    TableSchema.name table_schema' = TableSchema.name table_schema /\
    TableSchema.description table_schema' = TableSchema.description table_schema /\
    TableSchema.primary_key table_schema' = TableSchema.primary_key table_schema /\
    dict_keys (TableSchema.columns table_schema')
      = dict_keys (TableSchema.columns table_schema) /\
    (forall key column,
        dict_get (TableSchema.columns table_schema) key = Some column ->
        exists column',
          dict_get (TableSchema.columns table_schema') key = Some column' /\
          same_but_references column column' /\
          (~ In key (map foreign_key_column constraints) ->
           ColumnSchema.references column' = ColumnSchema.references column)) /\
    (forall c, In c constraints ->
               exists column',
                 dict_get (TableSchema.columns table_schema') (foreign_key_column c)
                   = Some column' /\
                 ColumnSchema.references column' = Some (foreign_key_of c)).
Proof.
  induction constraints as [|c constraints IH]; intros ts ts' H; simpl in H.
  - injection H as <-. repeat split; try reflexivity.
    + intros key column Hget. exists column. repeat split; auto.
    + intros c [].
  - destruct (_set_foreign_key ts c) as [ts1|e] eqn:E; simpl in H; [|discriminate].
    pose proof E as Estep.
    apply _set_foreign_key_Ok in E. destruct E as (column & Hs & Hc & Hr & ->).
    destruct (IH _ _ H) as (Hname & Hdesc & Hpk & Hkeys & Hcols & Hrows).
    split; [exact Hname|]. split; [exact Hdesc|]. split; [exact Hpk|].
    split.
    { rewrite Hkeys. simpl. apply dict_keys_set_present. congruence. }
    split.
    + intros key column0 Hget.
      destruct (string_dec (foreign_key_column c) key) as [Heq|Hne].
      * subst key. assert (column0 = column) by congruence. subst column0.
        destruct (Hcols (foreign_key_column c)
                    (ColumnSchema.set_references column (Some (foreign_key_of c))))
          as (column' & Hget' & (H1 & H2 & H3 & H4) & _).
        { simpl. apply dict_get_set_same. }
        exists column'. split; [exact Hget'|]. split; [split; auto|].
        intro Hnot. exfalso. apply Hnot. left. reflexivity.
      * destruct (Hcols key column0) as (column' & Hget' & Hsame & Hrefs).
        { simpl. rewrite dict_get_set_other; assumption. }
        exists column'. split; [exact Hget'|]. split; [exact Hsame|].
        intro Hnot. apply Hrefs. intro HIn. apply Hnot. right. exact HIn.
    + intros c' [<-|HIn]; [|apply Hrows; exact HIn].
      assert (Hfresh : ~ In (foreign_key_column c) (map foreign_key_column constraints)).
      { assert (Hok : _set_foreign_keys_loop (c :: constraints) ts = Ok ts')
          by (simpl; rewrite Estep; exact H).
        apply _set_foreign_keys_loop_NoDup in Hok.
        inversion Hok; assumption. }
      destruct (Hcols (foreign_key_column c)
                  (ColumnSchema.set_references column (Some (foreign_key_of c))))
        as (column' & Hget' & _ & Hrefs).
      { simpl. apply dict_get_set_same. }
      exists column'. split; [exact Hget'|]. rewrite (Hrefs Hfresh). reflexivity.
Qed.
End ForeignKeyRows.

Lemma foreign_key_pass_succeeds_iff_witness :
  exists table_schema',
    _set_foreign_keys_loop [a_reference "x" "public" "p"; a_reference "y" "public" "q"]
      (loaded_columns (fetch_columns foreign_key_db "public" "t")) = Ok table_schema'.
Proof.
  apply (proj2 (foreign_key_pass_succeeds_iff _ _)). split.
  - repeat constructor; simpl; eexists; split; reflexivity.
  - repeat constructor; simpl; intuition discriminate.
Defined.


Lemma foreign_key_pass_only_attaches_witness :
  exists table_schema' column',
    _set_foreign_keys_loop [a_reference "x" "public" "p"]
      (loaded_columns (fetch_columns foreign_key_db "public" "t")) = Ok table_schema' /\
    dict_get (TableSchema.columns table_schema') "x" = Some column' /\
    ColumnSchema.references column'
      = Some (foreign_key_of (a_reference "x" "public" "p")).
Proof.
  destruct (_set_foreign_keys_loop [a_reference "x" "public" "p"]
              (loaded_columns (fetch_columns foreign_key_db "public" "t")))
    as [ts'|e] eqn:E; [|vm_compute in E; discriminate E].
  destruct (foreign_key_pass_only_attaches _ _ _ E) as (_ & _ & _ & _ & _ & Hrows).
  destruct (Hrows (a_reference "x" "public" "p") (or_introl eq_refl))
    as (column' & Hget & Href).
  exists ts', column'. auto.
Defined.

(** ** Loading a table *)

Lemma recognized_lookup db_type :
  recognized db_type -> exists T, In (db_type, T) lookup_table.
Proof.
  unfold recognized. rewrite in_map_iff. intros ([n T] & <- & HIn).
  exists T. exact HIn.
Qed.

Section Loading.
Context {Value : Type}.
Variable parse_literal : py_type -> string -> result Value.
Variable isidentifier : string -> bool.
Variable new_class : string -> list (string * annotation * Field.t Value) -> result unit.

Lemma _add_column_Ok column_schemas column column_schemas' :
  _add_column parse_literal column_schemas column = Ok column_schemas' ->
  exists T default,
    In (data_type column, T) lookup_table /\
    cast_if_not_none parse_literal T (column_default column) = Ok default /\
    column_schemas'
      = dict_set column_schemas (column_name column)
          {| ColumnSchema.name := column_name column;
             ColumnSchema.data_type :=
               if truth (is_nullable column) && is_null (column_default column)
               then Optional T else Plain T;
             ColumnSchema.default := default;
             ColumnSchema.description := description column;
             ColumnSchema.references := None |}.
Proof.
  intro H.
  destruct (_db_type_to_py_type_cases (data_type column)) as [Hrec|Hun].
  - destruct (recognized_lookup _ Hrec) as (T & HT). exists T.
    unfold _add_column in H.
    rewrite (_db_type_to_py_type_recognized _ _ _ _ HT) in H. simpl in H.
    rewrite negb_involutive in H.
    destruct (cast_if_not_none parse_literal T (column_default column))
      as [default|e]; simpl in H; [|discriminate].
    injection H as <-. exists default. split; [exact HT|]. split; [reflexivity|].
    destruct (truth (is_nullable column) && is_null (column_default column));
      reflexivity.
  - unfold _add_column in H. rewrite Hun in H. discriminate H.
Qed.

(** Records with distinct names, none of them in the dictionary yet, are
    appended to it one entry each. *)
Lemma _add_columns_distinct columns :
  forall column_schemas column_schemas',
    NoDup (map column_name columns) ->
    (forall r, In r columns -> ~ In (column_name r) (dict_keys column_schemas)) ->
    _add_columns parse_literal columns column_schemas = Ok column_schemas' ->
    exists entries,
      column_schemas' = (column_schemas ++ entries)%list /\
      Forall2 (loaded_from parse_literal) columns entries /\
      (forall e, In e entries -> ColumnSchema.references (snd e) = None).
Proof.
  induction columns as [|r columns IH]; intros cs cs' Hnd Hfresh H; simpl in H.
  - injection H as <-. exists []. rewrite app_nil_r.
    split; [reflexivity|]. split; [constructor|intros e []].
  - destruct (_add_column parse_literal cs r) as [cs1|e] eqn:E; simpl in H;
      [|discriminate].
    apply _add_column_Ok in E. destruct E as (T & default & HT & Hcast & ->).
    rewrite dict_set_fresh in H by (apply Hfresh; left; reflexivity).
    inversion Hnd as [|? ? Hr Hnd']; subst.
    assert (Hfresh' : forall r', In r' columns ->
              ~ In (column_name r')
                   (dict_keys (cs ++ [(column_name r,
                      {| ColumnSchema.name := column_name r;
                         ColumnSchema.data_type :=
                           if truth (is_nullable r) && is_null (column_default r)
                           then Optional T else Plain T;
                         ColumnSchema.default := default;
                         ColumnSchema.description := description r;
                         ColumnSchema.references := None |})])%list)).
    { intros r' Hr' HIn. unfold dict_keys in HIn. rewrite map_app in HIn.
      apply in_app_or in HIn. destruct HIn as [HIn|[Heq|[]]].
      - apply (Hfresh r' (or_intror Hr')). exact HIn.
      - simpl in Heq. apply Hr. rewrite Heq. apply in_map. exact Hr'. }
    destruct (IH _ _ Hnd' Hfresh' H) as (entries & -> & Hall & Hrefs).
    eexists. split; [rewrite <- app_assoc; reflexivity|]. split.
    + constructor; [|exact Hall].
      unfold loaded_from. simpl. repeat split. exists T. auto.
    + intros e [<-|He]; [reflexivity|apply Hrefs; exact He].
Qed.

Lemma _set_unique_keys_keeps conn db_schema (table_schema table_schema' : TableSchema.t Value) :
  _set_unique_keys conn db_schema table_schema = Ok table_schema' ->
  TableSchema.name table_schema' = TableSchema.name table_schema /\
  TableSchema.description table_schema' = TableSchema.description table_schema /\
  TableSchema.columns table_schema' = TableSchema.columns table_schema.
Proof.
  unfold _set_unique_keys.
  destruct (fetch_unique_constraints conn db_schema (TableSchema.name table_schema))
    as [|first [|second rest]]; simpl; intro H; injection H as <-; auto.
Qed.

(** The column list after a foreign-key pass: the same keys in the same
    order, each column as before but for its foreign key. *)
Lemma _set_foreign_keys_loop_columns constraints :
  forall table_schema table_schema' : TableSchema.t Value,
    _set_foreign_keys_loop constraints table_schema = Ok table_schema' ->
    Forall2 (fun e e' => fst e' = fst e /\ same_but_references (snd e) (snd e'))
            (TableSchema.columns table_schema) (TableSchema.columns table_schema').
Proof.
  assert (Hrefl : forall d : dict (ColumnSchema.t Value),
             Forall2 (fun e e' => fst e' = fst e /\ same_but_references (snd e) (snd e'))
                     d d).
  { induction d; constructor; [|assumption]. repeat split. }
  assert (Hset : forall (d : dict (ColumnSchema.t Value)) k c fk,
             dict_get d k = Some c ->
             Forall2 (fun e e' => fst e' = fst e /\ same_but_references (snd e) (snd e'))
                     d (dict_set d k (ColumnSchema.set_references c fk))).
  { induction d as [|[k' c'] d IHd]; intros k c fk Hget; simpl in *; [discriminate|].
    destruct (k' =? k)%string eqn:E.
    - injection Hget as ->. apply String.eqb_eq in E. subst.
      constructor; [|apply Hrefl]. repeat split.
    - constructor; [repeat split|]. apply IHd. exact Hget. }
  induction constraints as [|c constraints IH]; intros ts ts' H; simpl in H.
  - injection H as <-. apply Hrefl.
  - destruct (_set_foreign_key ts c) as [ts1|e] eqn:E; simpl in H; [|discriminate].
    apply _set_foreign_key_Ok in E. destruct E as (column & _ & Hc & _ & ->).
    specialize (IH _ _ H). simpl in IH.
    specialize (Hset _ _ _ (Some (foreign_key_of c)) Hc).
    revert IH Hset. generalize (TableSchema.columns ts').
    generalize (dict_set (TableSchema.columns ts) (foreign_key_column c)
                  (ColumnSchema.set_references column (Some (foreign_key_of c)))).
    generalize (TableSchema.columns ts).
    clear. intros d0. induction d0 as [|e0 d0 IHd0]; intros d1 d2 H12 H01.
    + inversion H01; subst. inversion H12; subst. constructor.
    + inversion H01 as [|? e1 ? d1' (Hk1 & H1a & H1b & H1c & H1d) Hrest1]; subst.
      inversion H12 as [|? e2 ? d2' (Hk2 & H2a & H2b & H2c & H2d) Hrest2]; subst.
      constructor; [|eapply IHd0; eauto].
      unfold same_but_references. repeat split; congruence.
Qed.

(** X9.  When the column records of a table have distinct names and the
    load goes through, the table has the name asked for and the fetched
    description, and one column for every record, in the order of the
    records, stored under the record's column name, with the mapped type
    (optional for a nullable column without default), the converted default
    and the record's description. *)
Theorem loaded_table_follows_records conn db_schema db_table table_schema :
  NoDup (map column_name (fetch_columns conn db_schema db_table)) ->
  _get_table_schema parse_literal conn db_schema db_table = Ok table_schema ->
  TableSchema.name table_schema = db_table /\
  TableSchema.description table_schema
    = fetch_table_description conn db_schema db_table /\
  Forall2 (loaded_from parse_literal)
          (fetch_columns conn db_schema db_table)
          (TableSchema.columns table_schema).
Proof.
  intros Hnd H. unfold _get_table_schema in H.
  destruct (_add_columns parse_literal (fetch_columns conn db_schema db_table) [])
    as [cs|e] eqn:Ecols; simpl in H; [|discriminate].
  destruct (_set_foreign_keys conn db_schema _) as [ts1|e] eqn:Efk; simpl in H;
    [|discriminate].
  destruct (_set_unique_keys conn db_schema ts1) as [ts2|e] eqn:Euk; simpl in H;
    [|discriminate].
  injection H as <-.
  apply _set_unique_keys_keeps in Euk. destruct Euk as (Hn2 & Hd2 & Hc2).
  unfold _set_foreign_keys in Efk.
  destruct (_set_foreign_keys_loop_header _ _ _ Efk) as (Hn1 & Hd1 & _).
  pose proof (_set_foreign_keys_loop_columns _ _ _ Efk) as Hcols. simpl in *.
  split; [congruence|]. split; [congruence|].
  rewrite Hc2.
  assert (Hfresh : forall r, In r (fetch_columns conn db_schema db_table) ->
                             ~ In (column_name r)
                                  (dict_keys ([] : dict (ColumnSchema.t Value))))
    by (intros r _ []).
  destruct (_add_columns_distinct _ _ _ Hnd Hfresh Ecols)
    as (entries & -> & Hloaded & _).
  simpl in Hcols. clear - Hloaded Hcols.
  revert Hcols. generalize (TableSchema.columns ts1).
  induction Hloaded as [|r e records entries Hre _ IH]; intros d Hcols.
  - inversion Hcols. constructor.
  - inversion Hcols as [|? e' ? d' (Hk & H1 & H2 & H3 & H4) Hrest]; subst.
    constructor; [|apply IH; exact Hrest].
    destruct Hre as (Hkey & Hname & Hdesc & T & HT & Htype & Hcast).
    unfold loaded_from. repeat split; try congruence.
    exists T. repeat split; congruence.
Qed.

(** X10.  A default literal that the conversion rejects makes the load of
    the table fail with the exception of the conversion, when the records
    before it loaded; the literal is converted at the plain type of the
    column, nullable or not. *)
Theorem rejected_default_fails_the_load conn db_schema db_table
    before column after column_schemas T literal e :
  fetch_columns conn db_schema db_table = (before ++ column :: after)%list ->
  _add_columns parse_literal before [] = Ok column_schemas ->
  In (data_type column, T) lookup_table ->
  column_default column = Some literal ->
  parse_literal T literal = Raise e ->
  _get_table_schema parse_literal conn db_schema db_table = Raise e.
Proof.
  intros Hcols Hbefore HT Hdefault Hparse.
  unfold _get_table_schema. rewrite Hcols, _add_columns_app, Hbefore. simpl.
  unfold _add_column.
  rewrite (_db_type_to_py_type_recognized _ _ _ _ HT). simpl.
  rewrite Hdefault. simpl. rewrite Hparse. reflexivity.
Qed.
End Loading.

Lemma loaded_table_follows_records_witness :
  exists table_schema,
    _get_table_schema keep_literal mixed_db "public" "t" = Ok table_schema /\
    dict_keys (TableSchema.columns table_schema)
      = ["id"; "note"; "name"; "count"; "day"] /\
    Forall2 (loaded_from keep_literal) (fetch_columns mixed_db "public" "t")
            (TableSchema.columns table_schema).
Proof.
  destruct (_get_table_schema keep_literal mixed_db "public" "t")
    as [ts|e] eqn:E; [|vm_compute in E; discriminate E].
  exists ts. split; [reflexivity|].
  split; [vm_compute in E; injection E as <-; reflexivity|].
  apply (loaded_table_follows_records keep_literal mixed_db "public" "t" ts).
  - simpl. repeat constructor; simpl; intuition discriminate.
  - exact E.
Defined.

Lemma rejected_default_fails_the_load_witness :
  _get_table_schema reject_now default_call_db "public" "t"
    = Raise (TypeError "an integer is required" "now()").
Proof.
  apply (rejected_default_fails_the_load reject_now default_call_db "public" "t"
           [a_column "id" "integer" false None]
           (a_column "created" "timestamp" true (Some "now()")) []
           [("id", {| ColumnSchema.name := "id";
                      ColumnSchema.data_type := Plain py_int;
                      ColumnSchema.default := None;
                      ColumnSchema.description := None;
                      ColumnSchema.references := None |})]
           datetime_datetime "now()").
  - reflexivity.
  - vm_compute. reflexivity.
  - vm_compute. tauto.
  - reflexivity.
  - reflexivity.
Defined.

(** ** Building the catalog *)

Lemma mapM_app {A B : Type} (f : A -> result B) xs ys :
  mapM f (xs ++ ys)
    = (a <- mapM f xs ;; b <- mapM f ys ;; Ok (a ++ b)%list).
Proof.
  induction xs as [|x xs IH]; simpl.
  - destruct (mapM f ys); reflexivity.
  - destruct (f x); simpl; [|reflexivity].
    rewrite IH. destruct (mapM f xs); simpl; [|reflexivity].
    destruct (mapM f ys); reflexivity.
Qed.

Lemma mapM_Forall2 {A B : Type} (f : A -> result B) xs :
  forall ys, mapM f xs = Ok ys -> Forall2 (fun x y => f x = Ok y) xs ys.
Proof.
  induction xs as [|x xs IH]; simpl; intros ys H.
  - injection H as <-. constructor.
  - destruct (f x) as [y|e] eqn:Ef; simpl in H; [|discriminate].
    destruct (mapM f xs) as [ys'|e]; simpl in H; [|discriminate].
    injection H as <-. constructor; [exact Ef|apply IH; reflexivity].
Qed.

Section Catalog.
Context {Value : Type}.
Variable parse_literal : py_type -> string -> result Value.
Variable isidentifier : string -> bool.
Variable new_class : string -> list (string * annotation * Field.t Value) -> result unit.

Lemma _get_table_schema_name conn db_schema db_table (table_schema : TableSchema.t Value) :
  _get_table_schema parse_literal conn db_schema db_table = Ok table_schema ->
  TableSchema.name table_schema = db_table.
Proof.
  unfold _get_table_schema. intro H.
  destruct (_add_columns parse_literal _ []) as [cs|e]; simpl in H; [|discriminate].
  destruct (_set_foreign_keys conn db_schema _) as [ts1|e] eqn:Efk; simpl in H;
    [|discriminate].
  destruct (_set_unique_keys conn db_schema ts1) as [ts2|e] eqn:Euk; simpl in H;
    [|discriminate].
  injection H as <-.
  apply _set_unique_keys_keeps in Euk. destruct Euk as (Hn2 & _).
  unfold _set_foreign_keys in Efk.
  destruct (_set_foreign_keys_loop_header _ _ _ Efk) as (Hn1 & _).
  simpl in Hn1. congruence.
Qed.

(** C5.  [_set_unique_keys] always goes through and leaves the table as it
    was but for its primary key, which it sets from the fetched rows: with
    no row the table has no primary key; with one row, a single-column key
    of that row's column, under that row's constraint name; with two or
    more, a composite key of the columns of all rows in the order of the
    rows, under the constraint name of the first row.  This is the primary
    key of the table that [_get_table_schema] returns. *)
Theorem primary_key_arity conn db_schema :
  (forall table_schema : TableSchema.t Value,
      exists table_schema',
        _set_unique_keys conn db_schema table_schema = Ok table_schema' /\
        TableSchema.primary_key table_schema'
          = match fetch_unique_constraints conn db_schema
                    (TableSchema.name table_schema) with
            | [] => None
            | [row] =>
                Some {| PrimaryKey.name := key_name row;
                        PrimaryKey.column := SingleColumn (key_column row) |}
            | first :: second :: rest =>
                Some {| PrimaryKey.name := key_name first;
                        PrimaryKey.column :=
                          CompositeColumns
                            (key_column first :: key_column second
                               :: map key_column rest) |}
            end /\
        TableSchema.name table_schema' = TableSchema.name table_schema /\
        TableSchema.description table_schema' = TableSchema.description table_schema /\
        TableSchema.columns table_schema' = TableSchema.columns table_schema) /\
  (forall db_table table_schema,
      _get_table_schema parse_literal conn db_schema db_table = Ok table_schema ->
      TableSchema.primary_key table_schema
        = match fetch_unique_constraints conn db_schema db_table with
          | [] => None
          | [row] =>
              Some {| PrimaryKey.name := key_name row;
                      PrimaryKey.column := SingleColumn (key_column row) |}
          | first :: second :: rest =>
              Some {| PrimaryKey.name := key_name first;
                      PrimaryKey.column :=
                        CompositeColumns
                          (key_column first :: key_column second
                             :: map key_column rest) |}
          end).
Proof.
  assert (Hset : forall table_schema : TableSchema.t Value,
             exists table_schema',
               _set_unique_keys conn db_schema table_schema = Ok table_schema' /\
               TableSchema.primary_key table_schema'
                 = match fetch_unique_constraints conn db_schema
                           (TableSchema.name table_schema) with
                   | [] => None
                   | [row] =>
                       Some {| PrimaryKey.name := key_name row;
                               PrimaryKey.column := SingleColumn (key_column row) |}
                   | first :: second :: rest =>
                       Some {| PrimaryKey.name := key_name first;
                               PrimaryKey.column :=
                                 CompositeColumns
                                   (key_column first :: key_column second
                                      :: map key_column rest) |}
                   end /\
               TableSchema.name table_schema' = TableSchema.name table_schema /\
               TableSchema.description table_schema'
                 = TableSchema.description table_schema /\
               TableSchema.columns table_schema' = TableSchema.columns table_schema).
  { intro table_schema. unfold _set_unique_keys.
    destruct (fetch_unique_constraints conn db_schema (TableSchema.name table_schema))
      as [|first [|second rest]]; simpl; eexists; (split; [reflexivity|]);
      simpl; auto. }
  split; [exact Hset|].
  intros db_table table_schema H. unfold _get_table_schema in H.
  destruct (_add_columns parse_literal _ []) as [cs|e]; simpl in H; [|discriminate].
  destruct (_set_foreign_keys conn db_schema _) as [ts1|e] eqn:Efk; simpl in H;
    [|discriminate].
  destruct (Hset ts1) as (ts2 & Euk & Hkey & _).
  rewrite Euk in H. simpl in H. injection H as <-.
  unfold _set_foreign_keys in Efk.
  destruct (_set_foreign_keys_loop_header _ _ _ Efk) as (Hname & _).
  simpl in Hname. rewrite Hname in Hkey. exact Hkey.
Qed.

(** The entries of a catalog that was built: one for every name the query
    returned, in that order, holding the table loaded under that name. *)
Lemma get_catalog_schema_entries fuel conn db_schema catalog :
  get_catalog_schema parse_literal fuel conn db_schema = Some (Ok catalog) ->
  exists tables,
    typed_fetch_column_query fuel conn db_schema = Some (Ok tables) /\
    CatalogSchema.name catalog = db_schema /\
    Forall2 (fun t entry =>
               fst entry = t /\
               _get_table_schema parse_literal conn db_schema t = Ok (snd entry))
            tables (CatalogSchema.tables catalog).
Proof.
  unfold get_catalog_schema. intro H.
  destruct (typed_fetch_column_query fuel conn db_schema) as [[tables|e]|] eqn:Hq;
    try discriminate.
  injection H as H.
  destruct (mapM (_get_table_schema parse_literal conn db_schema) tables)
    as [tss|e] eqn:Em; simpl in H; [|discriminate].
  injection H as <-. exists tables. split; [reflexivity|]. split; [reflexivity|].
  simpl.
  apply mapM_Forall2 in Em.
  assert (Hnames : map TableSchema.name tss = tables).
  { clear Hq. induction Em as [|t ts tables tss Hload _ IH]; [reflexivity|].
    simpl. rewrite IH. f_equal. exact (_get_table_schema_name _ _ _ _ Hload). }
  rewrite dict_of_NoDup.
  - clear Hq Hnames. induction Em as [|t ts tables tss Hload _ IH]; simpl;
      constructor; [|exact IH].
    simpl. split; [exact (_get_table_schema_name _ _ _ _ Hload)|exact Hload].
  - replace (map fst (map (fun table : TableSchema.t Value =>
                             (TableSchema.name table, table)) tss))
      with tables
      by (rewrite map_map; simpl; rewrite <- Hnames; apply map_ext; reflexivity).
    destruct (typed_fetch_column_query_groups _ _ _ _ Hq) as (groups & Hg & ->).
    exact (proj2 (ordered_groups_Sorted _ _ _ _ Hg)).
Qed.

(** X11.  The catalog is built table by table in the order of the query,
    and the first table whose load raises ends the build with that
    exception, in [get_catalog_schema] and in [main]: no catalog is
    returned with the tables loaded before. *)
Theorem catalog_build_stops_at_first_failure fuel conn db_schema
    before db_table after loaded e :
  typed_fetch_column_query fuel conn db_schema
    = Some (Ok (before ++ db_table :: after)%list) ->
  mapM (_get_table_schema parse_literal conn db_schema) before = Ok loaded ->
  _get_table_schema parse_literal conn db_schema db_table = Raise e ->
  get_catalog_schema parse_literal fuel conn db_schema = Some (Raise e) /\
  main parse_literal isidentifier new_class fuel conn db_schema = Some (Raise e).
Proof.
  intros Hq Hbefore Hload.
  assert (H : get_catalog_schema parse_literal fuel conn db_schema = Some (Raise e)).
  { unfold get_catalog_schema. rewrite Hq, mapM_app, Hbefore. simpl.
    rewrite Hload. reflexivity. }
  split; [exact H|]. unfold main. rewrite H. reflexivity.
Qed.

(** X12.  A catalog that was built has the name of the schema and one
    table for every name the query returned, in the order of the query;
    looking a returned name up in it gives the table loaded under that
    name, whose own name it is. *)
Theorem catalog_lists_tables_in_query_order fuel conn db_schema catalog :
  get_catalog_schema parse_literal fuel conn db_schema = Some (Ok catalog) ->
  exists tables,
    typed_fetch_column_query fuel conn db_schema = Some (Ok tables) /\
    CatalogSchema.name catalog = db_schema /\
    dict_keys (CatalogSchema.tables catalog) = tables /\
    forall t, In t tables ->
              exists table_schema,
                dict_get (CatalogSchema.tables catalog) t = Some table_schema /\
                _get_table_schema parse_literal conn db_schema t = Ok table_schema /\
                TableSchema.name table_schema = t.
Proof.
  intro H.
  destruct (get_catalog_schema_entries _ _ _ _ H) as (tables & Hq & Hname & Hall).
  exists tables. split; [exact Hq|]. split; [exact Hname|].
  assert (Hkeys : dict_keys (CatalogSchema.tables catalog) = tables).
  { clear - Hall. unfold dict_keys.
    induction Hall as [|t entry tables entries [Hk _] _ IH]; [reflexivity|].
    simpl. rewrite IH, Hk. reflexivity. }
  split; [exact Hkeys|].
  assert (Hnodup : NoDup (dict_keys (CatalogSchema.tables catalog))).
  { rewrite Hkeys.
    destruct (typed_fetch_column_query_groups _ _ _ _ Hq) as (groups & Hg & ->).
    exact (proj2 (ordered_groups_Sorted _ _ _ _ Hg)). }
  intros t Ht.
  assert (Hentry : exists ts, In (t, ts) (CatalogSchema.tables catalog) /\
                              _get_table_schema parse_literal conn db_schema t = Ok ts).
  { clear - Hall Ht.
    induction Hall as [|t' [k ts] tables entries [Hk Hload] _ IH]; [destruct Ht|].
    simpl in Hk. subst k. destruct Ht as [->|Ht].
    - exists ts. split; [left; reflexivity|exact Hload].
    - destruct (IH Ht) as (ts' & HIn & Hload'). exists ts'. split; [right|]; assumption. }
  destruct Hentry as (ts & HIn & Hload).
  exists ts. split; [exact (dict_In_get _ _ _ Hnodup HIn)|].
  split; [exact Hload|exact (_get_table_schema_name _ _ _ _ Hload)].
Qed.
End Catalog.


Lemma catalog_build_stops_at_first_failure_witness :
  get_catalog_schema keep_literal 10 two_tables_db "public"
    = Some (Raise (UnrecognizedType "uuid")) /\
  main keep_literal any_name any_class 10 two_tables_db "public"
    = Some (Raise (UnrecognizedType "uuid")).
Proof.
  apply (catalog_build_stops_at_first_failure keep_literal any_name any_class 10 two_tables_db
           "public" ["a"] "b" []
           [{| TableSchema.name := "a"; TableSchema.description := None;
               TableSchema.columns :=
                 [("id", {| ColumnSchema.name := "id";
                            ColumnSchema.data_type := Plain py_int;
                            ColumnSchema.default := None;
                            ColumnSchema.description := None;
                            ColumnSchema.references := None |})];
               TableSchema.primary_key := None |}]).
  - vm_compute. reflexivity.
  - vm_compute. reflexivity.
  - vm_compute. reflexivity.
Defined.

Lemma catalog_lists_tables_in_query_order_witness :
  exists catalog tables,
    get_catalog_schema keep_literal 10 invoice_db "public" = Some (Ok catalog) /\
    typed_fetch_column_query 10 invoice_db "public" = Some (Ok tables) /\
    dict_keys (CatalogSchema.tables catalog) = tables.
Proof.
  destruct (get_catalog_schema keep_literal 10 invoice_db "public")
    as [[catalog|e]|] eqn:E; try (vm_compute in E; discriminate E).
  destruct (catalog_lists_tables_in_query_order keep_literal 10 invoice_db "public"
              catalog E) as (tables & Hq & _ & Hkeys & _).
  exists catalog, tables. auto.
Defined.

(** ** Making the dataclasses *)

Lemma keyword_with_underscore name :
  iskeyword name = true -> iskeyword (name ++ "_") = false.
Proof.
  unfold iskeyword. intro H. apply str_in_In in H. unfold kwlist in H. simpl in H.
  repeat (destruct H as [<-|H]; [vm_compute; reflexivity|]).
  destruct H.
Qed.

Lemma append_underscore_inj s1 :
  forall s2, (s1 ++ "_")%string = (s2 ++ "_")%string -> s1 = s2.
Proof.
  induction s1 as [|c s1 IH]; intros [|c' s2] H; simpl in H.
  - reflexivity.
  - injection H as _ H. destruct s2; discriminate H.
  - injection H as _ H. destruct s1; discriminate H.
  - injection H as -> H. f_equal. apply IH. exact H.
Qed.

Lemma insert_by_key_Permutation {A : Type} (key : A -> bool) x l :
  Permutation (insert_by_key key x l) (x :: l).
Proof.
  induction l as [|y l IH]; simpl; [reflexivity|].
  destruct (key x && negb (key y)); [|reflexivity].
  rewrite IH. apply perm_swap.
Qed.

Lemma sort_by_key_Permutation {A : Type} (key : A -> bool) l :
  Permutation (sort_by_key key l) l.
Proof.
  induction l as [|x l IH]; [reflexivity|].
  change (sort_by_key key (x :: l)) with (insert_by_key key x (sort_by_key key l)).
  rewrite insert_by_key_Permutation. apply perm_skip. exact IH.
Qed.

Section Dataclasses.
Context {Value : Type}.
Variable parse_literal : py_type -> string -> result Value.
Variable isidentifier : string -> bool.
Variable new_class : string -> list (string * annotation * Field.t Value) -> result unit.

(** X13.  A generated field is named after its column and a generated
    class after its table: by the name itself or, when that is a Python
    keyword, by the name with an underscore appended.  Neither name is a
    Python keyword, no keyword followed by an underscore being one. *)
Theorem generated_names_are_not_keywords :
  (forall column : ColumnSchema.t Value,
      field_name (column_to_field column)
        = (if iskeyword (ColumnSchema.name column)
           then (ColumnSchema.name column ++ "_")%string
           else ColumnSchema.name column) /\
      iskeyword (field_name (column_to_field column)) = false) /\
  (forall (table : TableSchema.t Value) typ,
      table_to_dataclass isidentifier new_class table = Ok typ ->
      DataClass.__name__ typ
        = (if iskeyword (TableSchema.name table)
           then (TableSchema.name table ++ "_")%string
           else TableSchema.name table) /\
      iskeyword (DataClass.__name__ typ) = false /\
      Forall (fun f => iskeyword (field_name f) = false) (DataClass.fields typ)).
Proof.
  assert (Hname : forall name,
             iskeyword (if iskeyword name then (name ++ "_")%string else name) = false).
  { intro name.
    destruct (iskeyword name) eqn:E; [apply keyword_with_underscore|]; exact E. }
  assert (Hfield : forall column : ColumnSchema.t Value,
             iskeyword (field_name (column_to_field column)) = false).
  { intro column. unfold field_name, column_to_field. simpl.
    exact (Hname (ColumnSchema.name column)). }
  split.
  - intro column. split; [reflexivity|exact (Hfield column)].
  - intros table typ H. unfold table_to_dataclass, make_dataclass in H.
    destruct (check_field_names isidentifier [] (sorted_fields table));
      simpl in H; [|discriminate].
    destruct (new_class _ (sorted_fields table)); simpl in H; [|discriminate].
    destruct (check_defaults_last false (sorted_fields table));
      simpl in H; [|discriminate].
    injection H as <-. simpl.
    split; [reflexivity|]. split; [exact (Hname (TableSchema.name table))|].
    apply Forall_forall. intros f Hf. unfold sorted_fields in Hf.
    apply (Permutation_in _ (sort_by_key_Permutation _ _)) in Hf.
    apply in_map_iff in Hf. destruct Hf as (column & <- & _). exact (Hfield column).
Qed.

(** The checks of the field names pass exactly on distinct valid
    identifiers that are no keywords and were not seen before. *)
Lemma check_field_names_Ok (fields : list (string * annotation * Field.t Value)) :
  forall seen,
    check_field_names isidentifier seen fields = Ok tt <->
    Forall (fun f : string * annotation * Field.t Value =>
              isidentifier (field_name f) = true /\
              iskeyword (field_name f) = false) fields /\
    NoDup (map field_name fields) /\
    (forall f, In f fields -> ~ In (field_name f) seen).
Proof.
  induction fields as [|f fields IH]; intro seen; simpl.
  - split; [intros _|reflexivity].
    split; [constructor|]. split; [constructor|intros f []].
  - fold (field_name f).
    destruct (isidentifier (field_name f)) eqn:Eid; simpl.
    2:{ split; [discriminate|]. intros (Hall & _). inversion Hall; subst.
        intuition congruence. }
    destruct (iskeyword (field_name f)) eqn:Ekw.
    { split; [discriminate|]. intros (Hall & _). inversion Hall; subst.
      intuition congruence. }
    destruct (str_in (field_name f) seen) eqn:Eseen.
    { split; [discriminate|]. intros (_ & _ & Hseen). exfalso.
      apply (Hseen f (or_introl eq_refl)). apply str_in_In. exact Eseen. }
    rewrite IH. split.
    + intros (Hall & Hnd & Hseen). split; [constructor; auto|]. split.
      * constructor; [|exact Hnd]. intro HIn. apply in_map_iff in HIn.
        destruct HIn as (g & Hg & HIn). apply (Hseen g HIn). left. symmetry. exact Hg.
      * intros g [<-|Hg].
        -- intro HIn. apply str_in_In in HIn. congruence.
        -- intro HIn. apply (Hseen g Hg). right. exact HIn.
    + intros (Hall & Hnd & Hseen).
      inversion Hall; subst. inversion Hnd as [|? ? Hf Hnd']; subst.
      split; [assumption|]. split; [exact Hnd'|].
      intros g Hg [Heq|HIn].
      * apply Hf. rewrite Heq. apply in_map. exact Hg.
      * apply (Hseen g (or_intror Hg)). exact HIn.
Qed.

(** The errors of the checks of the field names. *)
Lemma check_field_names_Raise (fields : list (string * annotation * Field.t Value)) :
  forall seen e,
    check_field_names isidentifier seen fields = Raise e ->
    exists name,
      e = TypeError "Field names must be valid identifiers" name \/
      (e = TypeError "Field names must not be keywords" name /\
       iskeyword name = true /\ In name (map field_name fields)) \/
      e = TypeError "Field name duplicated" name.
Proof.
  induction fields as [|f fields IH]; intros seen e H; simpl in H; [discriminate|].
  fold (field_name f) in H.
  destruct (isidentifier (field_name f)); simpl in H.
  2:{ injection H as <-. eexists. left. reflexivity. }
  destruct (iskeyword (field_name f)) eqn:Ekw.
  { injection H as <-. eexists. right. left. simpl. auto. }
  destruct (str_in (field_name f) seen).
  { injection H as <-. eexists. right. right. reflexivity. }
  destruct (IH _ _ H) as (name & [Hid|[(Hkw & Hk & HIn)|Hdup]]);
    exists name; simpl; auto 6.
Qed.

(** X14.  [table_to_dataclass] makes a class exactly when the field names
    of the columns are valid identifiers and distinct and Python's class
    machinery accepts the class.  The class then has the table's name
    (with an underscore after a keyword), the sorted fields and the
    table's description; its attribute [primary_key] is the table's
    primary key or, for a table without one, the default of a column named
    [primary_key], if there is one.  An exception is the [TypeError] for an
    invalid identifier or for a duplicated name, or else that of the class
    machinery: the check for keywords and the check of the order of
    defaults never fail. *)
Theorem dataclass_made_iff_names_valid (table : TableSchema.t Value) :
  let names := map (fun column => field_name (column_to_field column))
                   (dict_values (TableSchema.columns table)) in
  let made :=
    {| DataClass.__name__ := class_name (TableSchema.name table);
       DataClass.fields := sorted_fields table;
       DataClass.__doc__ := TableSchema.description table;
       DataClass.primary_key :=
         match TableSchema.primary_key table with
         | Some pk => Some (PrimaryKeyAttribute pk)
         | None => default_attribute "primary_key" (sorted_fields table)
         end |} in
  (table_to_dataclass isidentifier new_class table = Ok made <->
   Forall (fun name => isidentifier name = true) names /\
   NoDup names /\
   new_class (class_name (TableSchema.name table)) (sorted_fields table) = Ok tt) /\
  (forall typ, table_to_dataclass isidentifier new_class table = Ok typ -> typ = made) /\
  (forall e, table_to_dataclass isidentifier new_class table = Raise e ->
             (exists name,
                 e = TypeError "Field names must be valid identifiers" name \/
                 e = TypeError "Field name duplicated" name) \/
             new_class (class_name (TableSchema.name table)) (sorted_fields table)
               = Raise e).
Proof.
  intros names made.
  assert (Hperm : Permutation (map field_name (sorted_fields table)) names).
  { unfold sorted_fields, names.
    rewrite <- (map_map column_to_field field_name).
    apply Permutation_map. apply sort_by_key_Permutation. }
  assert (Hkw : forall f, In f (sorted_fields table) -> iskeyword (field_name f) = false).
  { intros f Hf.
    apply (Permutation_in _ (sort_by_key_Permutation _ _)) in Hf.
    apply in_map_iff in Hf. destruct Hf as (column & <- & _).
    unfold field_name, column_to_field. simpl.
    destruct (iskeyword (ColumnSchema.name column)) eqn:E;
      [apply keyword_with_underscore|]; exact E. }
  assert (Hdefaults : check_defaults_last false (sorted_fields table) = Ok tt).
  { unfold sorted_fields. rewrite sort_by_key_partition.
    apply check_defaults_last_partition.
    - intros f Hf. apply filter_In in Hf. destruct Hf as [_ Hf].
      apply negb_true_iff. exact Hf.
    - intros f Hf. apply filter_In in Hf. tauto. }
  assert (Hiff : check_field_names isidentifier [] (sorted_fields table) = Ok tt <->
                 Forall (fun name => isidentifier name = true) names /\ NoDup names).
  { rewrite check_field_names_Ok. split.
    - intros (Hall & Hnd & _). split.
      + apply (Permutation_Forall Hperm). apply Forall_map.
        revert Hall. apply Forall_impl. tauto.
      + exact (Permutation_NoDup Hperm Hnd).
    - intros [Hall Hnd]. split; [|split].
      + apply Forall_forall. intros f Hf. split; [|exact (Hkw f Hf)].
        apply (Permutation_Forall (Permutation_sym Hperm)) in Hall.
        rewrite Forall_map, Forall_forall in Hall. exact (Hall f Hf).
      + exact (Permutation_NoDup (Permutation_sym Hperm) Hnd).
      + intros f _ []. }
  assert (Hrun : table_to_dataclass isidentifier new_class table
                 = (_ <- check_field_names isidentifier [] (sorted_fields table) ;;
                    _ <- new_class (class_name (TableSchema.name table))
                                   (sorted_fields table) ;;
                    Ok made)).
  { unfold table_to_dataclass, make_dataclass. fold (class_name (TableSchema.name table)).
    destruct (check_field_names isidentifier [] (sorted_fields table)); [|reflexivity].
    simpl.
    destruct (new_class (class_name (TableSchema.name table)) (sorted_fields table));
      [|reflexivity].
    simpl. rewrite Hdefaults. reflexivity. }
  rewrite Hrun. clear Hrun.
  destruct (check_field_names isidentifier [] (sorted_fields table)) as [[]|e0] eqn:Ecf;
    simpl.
  - destruct (proj1 Hiff eq_refl) as [Hall Hnd].
    destruct (new_class (class_name (TableSchema.name table)) (sorted_fields table))
      as [[]|e1]; simpl.
    + split; [tauto|]. split; [congruence|discriminate].
    + split; [split; [discriminate|intros (_ & _ & H); discriminate H]|].
      split; [discriminate|]. intros e H. injection H as <-. right. reflexivity.
  - split.
    { split; [discriminate|]. intros (Hall & Hnd & _).
      pose proof (proj2 Hiff (conj Hall Hnd)) as H. discriminate H. }
    split; [discriminate|].
    intros e H. injection H as <-. left.
    destruct (check_field_names_Raise _ _ _ Ecf) as (name & [Hid|[(_ & Hk & HIn)|Hdup]]).
    + exists name. left. exact Hid.
    + exfalso. apply in_map_iff in HIn. destruct HIn as (f & <- & Hf).
      rewrite (Hkw f Hf) in Hk. discriminate Hk.
    + exists name. right. exact Hdup.
Qed.

(** X15.  Two columns give the same field only if they have the same type,
    default, description and foreign key, and their names are the same or
    one is a keyword and the other that keyword with an underscore. *)
Theorem same_field_same_column (c1 c2 : ColumnSchema.t Value) :
  column_to_field c1 = column_to_field c2 ->
  ColumnSchema.data_type c1 = ColumnSchema.data_type c2 /\
  ColumnSchema.default c1 = ColumnSchema.default c2 /\
  ColumnSchema.description c1 = ColumnSchema.description c2 /\
  ColumnSchema.references c1 = ColumnSchema.references c2 /\
  (ColumnSchema.name c1 = ColumnSchema.name c2 \/
   (iskeyword (ColumnSchema.name c1) = true /\
    ColumnSchema.name c2 = (ColumnSchema.name c1 ++ "_")%string) \/
   (iskeyword (ColumnSchema.name c2) = true /\
    ColumnSchema.name c1 = (ColumnSchema.name c2 ++ "_")%string)).
Proof.
  destruct c1 as [n1 t1 d1 s1 r1], c2 as [n2 t2 d2 s2 r2].
  unfold column_to_field. simpl. intro H.
  injection H as Hname Htype Hdefault Hmeta. subst t2.
  split; [reflexivity|]. split; [|split; [|split]].
  - destruct d1, d2, (is_optional_type t1); congruence.
  - destruct s1, s2, r1, r2; simpl in Hmeta; congruence.
  - destruct s1, s2, r1, r2; simpl in Hmeta; congruence.
  - destruct (iskeyword n1) eqn:E1, (iskeyword n2) eqn:E2.
    + left. apply append_underscore_inj. exact Hname.
    + right. left. auto.
    + right. right. auto.
    + left. exact Hname.
Qed.

Lemma check_defaults_last_partitioned (fields : list (string * annotation * Field.t Value)) :
  check_defaults_last false fields = Ok tt ->
  fields = (filter (fun f => negb (has_default f)) fields ++ filter has_default fields)%list.
Proof.
  assert (Hall : forall fs : list (string * annotation * Field.t Value),
             check_defaults_last true fs = Ok tt ->
             filter (fun f => negb (has_default f)) fs = [] /\ filter has_default fs = fs).
  { induction fs as [|f fs IH]; simpl; intro H; [auto|].
    destruct (has_default f) eqn:E; simpl; [|discriminate].
    destruct (IH H) as [-> ->]. auto. }
  induction fields as [|f fields IH]; simpl; intro H; [reflexivity|].
  destruct (has_default f) eqn:E; simpl.
  - destruct (Hall _ H) as [-> ->]. reflexivity.
  - rewrite <- (IH H). reflexivity.
Qed.

(** X16.  The sort of [table_to_dataclass] leaves the column order as it is
    exactly when no column with a default comes before one without, that
    is, when [dataclasses] would accept the column order. *)
Theorem sort_keeps_accepted_order (table : TableSchema.t Value) :
  let fields := map column_to_field (dict_values (TableSchema.columns table)) in
  sorted_fields table = fields <-> check_defaults_last false fields = Ok tt.
Proof.
  intro fields. unfold sorted_fields. fold fields.
  rewrite sort_by_key_partition. split.
  - intro H. rewrite <- H. apply check_defaults_last_partition.
    + intros f Hf. apply filter_In in Hf. destruct Hf as [_ Hf].
      apply negb_true_iff. exact Hf.
    + intros f Hf. apply filter_In in Hf. tauto.
  - intro H. symmetry. apply check_defaults_last_partitioned. exact H.
Qed.

(** X17.  When [main] gets its list of classes, the dependency query
    returned at least one table, and the list has one class for each
    returned table, in the order of the query, named after the table (with
    an underscore after a keyword). *)
Theorem main_makes_one_class_per_table fuel conn db_schema types :
  main parse_literal isidentifier new_class fuel conn db_schema = Some (Ok types) ->
  exists tables,
    typed_fetch_column_query fuel conn db_schema = Some (Ok tables) /\
    tables <> [] /\
    map DataClass.__name__ types = map class_name tables.
Proof.
  unfold main. intro H.
  destruct (get_catalog_schema parse_literal fuel conn db_schema) as [[catalog|e]|]
    eqn:Ec; try discriminate.
  injection H as H. simpl in H.
  destruct (CatalogSchema.__bool__ catalog) eqn:Eb; simpl in H; [|discriminate].
  destruct (get_catalog_schema_entries _ _ _ _ _ Ec) as (tables & Hq & _ & Hall).
  exists tables. split; [exact Hq|].
  unfold catalog_to_dataclasses in H. apply mapM_Forall2 in H.
  unfold CatalogSchema.__bool__ in Eb. unfold dict_values in H.
  split.
  - intros ->. destruct (CatalogSchema.tables catalog); [discriminate Eb|inversion Hall].
  - clear Eb Ec Hq. revert types H.
    induction Hall as [|t [k ts] tables entries [_ Hload] _ IH]; intros types H;
      simpl in H; inversion H as [|? typ ? types' Htyp Hrest]; subst; [reflexivity|].
    simpl. rewrite (IH _ Hrest). f_equal.
    simpl in Hload. apply _get_table_schema_name in Hload. simpl in Htyp.
    unfold table_to_dataclass, make_dataclass in Htyp.
    destruct (check_field_names isidentifier [] (sorted_fields ts));
      simpl in Htyp; [|discriminate].
    destruct (new_class _ (sorted_fields ts)); simpl in Htyp; [|discriminate].
    destruct (check_defaults_last false (sorted_fields ts));
      simpl in Htyp; [|discriminate].
    injection Htyp as <-. simpl. unfold class_name. rewrite Hload. reflexivity.
Qed.
End Dataclasses.

Lemma generated_names_are_not_keywords_witness :
  exists typ,
    table_to_dataclass any_name any_class keyword_table = Ok typ /\
    DataClass.__name__ typ = "class_" /\
    iskeyword (DataClass.__name__ typ) = false /\
    map field_name (DataClass.fields typ) = ["id"; "from_"].
Proof.
  eexists. split; [reflexivity|].
  destruct (proj2 (generated_names_are_not_keywords any_name any_class) keyword_table _
              eq_refl) as (Hname & Hkw & _).
  split; [exact Hname|]. split; [exact Hkw|reflexivity].
Defined.

Lemma dataclass_made_iff_names_valid_witness :
  table_to_dataclass any_name any_class keyword_table
    = Ok {| DataClass.__name__ := "class_";
            DataClass.fields := sorted_fields keyword_table;
            DataClass.__doc__ := None;
            DataClass.primary_key := None |}.
Proof.
  apply (proj2 (proj1 (dataclass_made_iff_names_valid any_name any_class keyword_table))).
  split; [repeat constructor|].
  split; [|reflexivity].
  repeat constructor; simpl; intuition discriminate.
Defined.

Lemma same_field_same_column_witness :
  column_to_field (date_column "from") = column_to_field (date_column "from_") /\
  (iskeyword "from" = true /\ "from_" = ("from" ++ "_")%string).
Proof.
  split; [reflexivity|].
  destruct (same_field_same_column (date_column "from") (date_column "from_")
              eq_refl) as (_ & _ & _ & _ & [H|[H|[H _]]]).
  - discriminate H.
  - exact H.
  - discriminate H.
Defined.

Lemma main_makes_one_class_per_table_witness :
  exists types,
    main keep_literal any_name any_class 2 keyword_db "public" = Some (Ok types) /\
    exists tables,
      typed_fetch_column_query 2 keyword_db "public" = Some (Ok tables) /\
      tables <> [] /\
      map DataClass.__name__ types = map class_name tables.
Proof.
  eexists. split; [reflexivity|].
  apply (main_makes_one_class_per_table keep_literal any_name any_class 2 keyword_db "public").
  reflexivity.
Defined.
